(** * fiasco.Element: rate matrix, ionization equilibrium and indexed access

    A shallow embedding of [fiasco/element.py].  Python values are modelled
    as follows:
    - [int] as [Z] (unbounded), [str] as [string] (the ASCII fragment);
    - a one-dimensional float array as [list Q]: every finite float is a
      rational, and the rounding of [+], [-] and [/] is idealised away;
    - a three-dimensional array as a shape together with nested lists;
    - exceptions through the [result] type, and methods of [Element] as
      functions that receive the instance and hand it back ([method]). *)

From Stdlib Require Import ZArith QArith Qabs String Ascii DecimalString DecimalPos DecimalZ.
From stdpp Require Import base option list gmap strings.

Local Open Scope string_scope.
Local Open Scope Z_scope.

(** ** Exceptions and the method monad *)

Inductive exn : Type :=
| IndexError
| ValueError
| InvalidParticleError.

Inductive result (A : Type) : Type :=
| Ok (a : A)
| Raise (e : exn).
Arguments Ok {A} a.
Arguments Raise {A} e.

Definition rbind {A B} (r : result A) (f : A -> result B) : result B :=
  match r with
  | Ok a => f a
  | Raise e => Raise e
  end.

Definition rfmap {A B} (f : A -> B) (r : result A) : result B :=
  match r with
  | Ok a => Ok (f a)
  | Raise e => Raise e
  end.

Declare Scope result_scope.
Delimit Scope result_scope with res.
Notation "x <~ r ; k" := (rbind r (fun x => k))
  (at level 100, r at next level, right associativity) : result_scope.
Notation "f <$$> r" := (rfmap f r) (at level 61, left associativity) : result_scope.

(** [[f(x) for x in l]], stopping at the first exception. *)
Fixpoint rmap {A B} (f : A -> result B) (l : list A) : result (list B) :=
  match l with
  | [] => Ok []
  | x :: l' => rbind (f x) (fun y => rbind (rmap f l') (fun ys => Ok (y :: ys)))
  end.

(** ** Python strings *)

Module PyStr.

(** Whitespace as [str.split] and [str.strip] see it, in the ASCII range:
    TAB, LF, VT, FF, CR, FS, GS, RS, US and the space. *)
Definition isspace (c : ascii) : bool :=
  let n := N_of_ascii c in
  (((9 <=? n)%N && (n <=? 13)%N) || ((28 <=? n)%N && (n <=? 32)%N))%bool.

Definition starts_token (s : string) : bool :=
  match s with
  | "" => false
  | String c _ => negb (isspace c)
  end.

(** [s.split()]: the maximal runs of non-whitespace characters. *)
Fixpoint split (s : string) : list string :=
  match s with
  | "" => []
  | String c s' =>
      if isspace c then split s'
      else if starts_token s' then
        match split s' with
        | tok :: rest => String c tok :: rest
        | [] => [String c ""]
        end
      else String c "" :: split s'
  end.

(** [c in s] for a one-character string [c]. *)
Fixpoint contains (c : ascii) (s : string) : bool :=
  match s with
  | "" => false
  | String a s' => (Ascii.eqb a c || contains c s')%bool
  end.

Fixpoint lstrip (p : ascii -> bool) (s : string) : string :=
  match s with
  | "" => ""
  | String c s' => if p c then lstrip p s' else s
  end.

Fixpoint rstrip (p : ascii -> bool) (s : string) : string :=
  match s with
  | "" => ""
  | String c s' =>
      match rstrip p s' with
      | "" => if p c then "" else String c ""
      | r => String c r
      end
  end.

(** [s.strip(chars)] with the characters to remove given as a predicate. *)
Definition strip (p : ascii -> bool) (s : string) : string :=
  rstrip p (lstrip p s).

Definition digit_of (c : ascii) : option (Decimal.uint -> Decimal.uint) :=
  match c with
  | "0" => Some Decimal.D0
  | "1" => Some Decimal.D1
  | "2" => Some Decimal.D2
  | "3" => Some Decimal.D3
  | "4" => Some Decimal.D4
  | "5" => Some Decimal.D5
  | "6" => Some Decimal.D6
  | "7" => Some Decimal.D7
  | "8" => Some Decimal.D8
  | "9" => Some Decimal.D9
  | _ => None
  end%char.

(** The digit part of a decimal literal: [digit ("_"? digit)*]. *)
Fixpoint digits (s : string) : option Decimal.uint :=
  match s with
  | "" => None
  | String c s' =>
      match digit_of c with
      | None => None
      | Some d =>
          match s' with
          | "" => Some (d Decimal.Nil)
          | String c' s'' =>
              if Ascii.eqb c' "_" then option_map d (digits s'')
              else option_map d (digits s')
          end
      end
  end.

(** The optional sign of a literal and what follows it. *)
Definition sign_of (body : string) : bool * string :=
  match body with
  | String "-" r => (true, r)
  | String "+" r => (false, r)
  | _ => (false, body)
  end.

(** [int(s)] in base 10: surrounding whitespace is dropped, one sign is
    allowed, anything else raises [ValueError]. *)
Definition int (s : string) : result Z :=
  let '(neg, ds) := sign_of (strip isspace s) in
  match digits ds with
  | Some d => Ok (if neg : bool then - Z.of_uint d else Z.of_uint d)
  | None => Raise ValueError
  end.

(** [str(n)] for an [int]. *)
Definition str (n : Z) : string := NilEmpty.string_of_int (Z.to_int n).

Definition is_digit (c : ascii) : bool :=
  match digit_of c with Some _ => true | None => false end.

(** The characters [str] writes: digits and a minus sign. *)
Definition is_numchar (c : ascii) : bool := (is_digit c || Ascii.eqb c "-")%bool.

Definition upper (c : ascii) : ascii :=
  let n := N_of_ascii c in
  if ((97 <=? n) && (n <=? 122))%N then ascii_of_N (n - 32) else c.

Definition lower (c : ascii) : ascii :=
  let n := N_of_ascii c in
  if ((65 <=? n) && (n <=? 90))%N then ascii_of_N (n + 32) else c.

Fixpoint map_chars (f : ascii -> ascii) (s : string) : string :=
  match s with
  | "" => ""
  | String c s' => String (f c) (map_chars f s')
  end.

Fixpoint all_chars (p : ascii -> bool) (s : string) : bool :=
  match s with
  | "" => true
  | String c s' => (p c && all_chars p s')%bool
  end.

(** A token: a non-empty string without whitespace. *)
Definition is_token (s : string) : bool :=
  match s with
  | "" => false
  | _ => all_chars (fun c => negb (isspace c)) s
  end.

(** [s.capitalize()]: first character upper-cased, the rest lower-cased. *)
Definition capitalize (s : string) : string :=
  match s with
  | "" => ""
  | String c s' => String (upper c) (map_chars lower s')
  end.

(** [sep.join(l)]. *)
Fixpoint join (sep : string) (l : list string) : string :=
  match l with
  | [] => ""
  | s :: l' =>
      match l' with
      | [] => s
      | _ :: _ => s +:+ sep +:+ join sep l'
      end
  end.

(** The line feed. *)
Definition newline : string := String "010" "".

End PyStr.

(** ** Python lists and ranges *)

(** [l[i]] for a Python list: negative positions count from the end,
    anything outside raises [IndexError]. *)
Definition py_index {A} (l : list A) (i : Z) : result A :=
  let n := Z.of_nat (length l) in
  let k := if i <? 0 then i + n else i in
  if ((0 <=? k) && (k <? n))%bool then
    match l !! Z.to_nat k with
    | Some x => Ok x
    | None => Raise IndexError
    end
  else Raise IndexError.

(** [range(a, b)]. *)
Definition range (a b : Z) : list Z :=
  map (fun k => a + Z.of_nat k) (seq 0 (Z.to_nat (b - a))).

(** ** Arrays *)

Module Np.

(** A three-dimensional float array: its shape and its entries
    (outermost axis first). *)
Record ndarray3 : Type := {
  dim0 : nat;
  dim1 : nat;
  dim2 : nat;
  data : list (list (list Q))
}.

(** [np.zeros((t, n, m))]; a negative dimension raises [ValueError]. *)
Definition zeros (t : nat) (n m : Z) : result ndarray3 :=
  if ((n <? 0) || (m <? 0))%bool then Raise ValueError
  else Ok {| dim0 := t; dim1 := Z.to_nat n; dim2 := Z.to_nat m;
             data := replicate t (replicate (Z.to_nat n) (replicate (Z.to_nat m) 0%Q)) |}.

(** An index along an axis of size [n]. *)
Definition axis_index (n : nat) (i : Z) : result nat :=
  let k := if i <? 0 then i + Z.of_nat n else i in
  if ((0 <=? k) && (k <? Z.of_nat n))%bool then Ok (Z.to_nat k) else Raise IndexError.

(** Broadcasting a one-dimensional value to length [t]. *)
Definition broadcast_to (t : nat) (v : list Q) : result (list Q) :=
  if decide (length v = t) then Ok v
  else match v with
       | [x] => Ok (replicate t x)
       | _ => Raise ValueError
       end.

(** [a[:, i, j] = v]. *)
Definition setitem (a : ndarray3) (i j : Z) (v : list Q) : result ndarray3 :=
  (i' <~ axis_index (dim1 a) i;
   j' <~ axis_index (dim2 a) j;
   v' <~ broadcast_to (dim0 a) v;
   Ok {| dim0 := dim0 a; dim1 := dim1 a; dim2 := dim2 a;
         data := zip_with (fun slice x => alter (fun row => <[j' := x]> row) i' slice)
                          (data a) v' |})%res.

(** [a[t, i, j]] for in-range natural positions. *)
Definition get (a : ndarray3) (t i j : nat) : option Q :=
  match data a !! t with
  | Some slice =>
      match slice !! i with
      | Some row => row !! j
      | None => None
      end
  | None => None
  end.

(** [x + y] for one-dimensional arrays, with broadcasting. *)
Definition add (x y : list Q) : result (list Q) :=
  if decide (length x = length y) then Ok (zip_with Qplus x y)
  else match x, y with
       | [a], _ => Ok (map (Qplus a) y)
       | _, [b] => Ok (map (fun a => a + b)%Q x)
       | _, _ => Raise ValueError
       end.

(** [-x]. *)
Definition neg (x : list Q) : list Q := map Qopp x.

(** [x.sum()] of a one-dimensional array. *)
Definition sum (x : list Q) : Q := foldr Qplus 0%Q x.

End Np.

(** ** Ions and the ion collection *)

(** Modelled from the spec: [fiasco.Ion] (fiasco/ion.py is not among the
    sources).  A per-stage rate provider, labelled by its name, bound to a
    temperature grid, and exposing [ionization_rate()] and
    [recombination_rate()] as arrays over that grid.  Both calls are pure. *)
Record Ion : Type := {
  ion_name : string;
  atomic_number : Z;
  temperature : list Q;
  ionization_rate : list Q;
  recombination_rate : list Q
}.

(** The instance: [IonCollection] keeps the ions in [_ion_list]. *)
Record Element : Type := { _ion_list : list Ion }.

(** A method receives [self] and returns its outcome with the instance as
    the call leaves it. *)
Definition method (A : Type) : Type := Element -> result A * Element.

Definition ret {A} (a : A) : method A := fun self => (Ok a, self).

Definition lift {A} (r : result A) : method A := fun self => (r, self).

Definition bind {A B} (m : method A) (f : A -> method B) : method B :=
  fun self =>
    match m self with
    | (Ok a, self') => f a self'
    | (Raise e, self') => (Raise e, self')
    end.

Declare Scope method_scope.
Delimit Scope method_scope with meth.
Notation "x <- m ;; k" := (bind m (fun x => k))
  (at level 100, m at next level, right associativity) : method_scope.

(** [for x in l: b = f(b, x)] inside a method. *)
Fixpoint mfold {A B} (f : B -> A -> method B) (l : list A) (b : B) : method B :=
  match l with
  | [] => ret b
  | x :: l' => bind (f b x) (mfold f l')
  end.

(** Reading the attribute [self._ion_list]. *)
Definition self_ion_list : method (list Ion) := fun self => (Ok (_ion_list self), self).

Module IonCollection.

(** Modelled from the spec: [IonCollection.__getitem__] (fiasco/collections.py
    is not among the sources): lookup by integer position in the ordered
    sequence of ions. *)
Definition __getitem__ (value : Z) : method Ion :=
  (l <- self_ion_list;;
   lift (py_index l value))%meth.

(** Modelled from the spec: [IonCollection.temperature], the grid shared by
    every ion of the collection, read off the first one. *)
Definition temperature : method (list Q) :=
  (ion <- __getitem__ 0;;
   ret (temperature ion))%meth.

End IonCollection.

(** ** The element *)

(** A lookup key: [element[3]] or [element["Fe 4"]]. *)
Inductive key : Type :=
| KInt (i : Z)
| KStr (s : string).

(** The position the second token of a string key denotes (lines 109-112). *)
Definition ion_position (ion : string) : result Z :=
  if PyStr.contains "+" ion then PyStr.int (PyStr.strip (Ascii.eqb "+") ion)
  else (n <~ PyStr.int ion; Ok (n - 1))%res.

(** [el, ion = value.split()] followed by the computation of the position;
    unpacking anything but two tokens raises [ValueError]. *)
Definition key_position (value : string) : result Z :=
  match PyStr.split value with
  | [el; ion] => ion_position ion
  | _ => Raise ValueError
  end.

(** [Element.__getitem__] (lines 106-113): a string key is turned into a
    position, any other key goes to the collection as it is. *)
Definition __getitem__ (value : key) : method Ion :=
  match value with
  | KStr s =>
      (value <- lift (key_position s);;
       IonCollection.__getitem__ value)%meth
  | KInt i => IonCollection.__getitem__ i
  end.

(** The property [Element.atomic_number] (lines 48-50): [self[0].atomic_number]. *)
Definition self_atomic_number : method Z :=
  (ion <- __getitem__ (KInt 0);;
   ret (atomic_number ion))%meth.

(** One pass of the loop at lines 64-67. *)
Definition interior_row (rate_matrix : Np.ndarray3) (i : Z) : method Np.ndarray3 :=
  (a <- __getitem__ (KInt i);;
   b <- __getitem__ (KInt i);;
   s <- lift (Np.add (ionization_rate a) (recombination_rate b));;
   rate_matrix <- lift (Np.setitem rate_matrix i i (Np.neg s));;
   lo <- __getitem__ (KInt (i - 1));;
   rate_matrix <- lift (Np.setitem rate_matrix i (i - 1) (ionization_rate lo));;
   hi <- __getitem__ (KInt (i + 1));;
   lift (Np.setitem rate_matrix i (i + 1) (recombination_rate hi)))%meth.

(** [Element._rate_matrix] (lines 60-73).  Units are not tracked: the
    entries are the values in the unit of the first stage's ionization rate. *)
Definition _rate_matrix : method Np.ndarray3 :=
  (temp <- IonCollection.temperature;;
   n <- self_atomic_number;;
   m <- self_atomic_number;;
   rate_matrix <- lift (Np.zeros (length temp) (n + 1) (m + 1));;
   unit_of <- __getitem__ (KInt 0);;
   stop <- self_atomic_number;;
   rate_matrix <- mfold interior_row (range 1 stop) rate_matrix;;
   a <- __getitem__ (KInt 0);;
   b <- __getitem__ (KInt 0);;
   s <- lift (Np.add (ionization_rate a) (recombination_rate b));;
   rate_matrix <- lift (Np.setitem rate_matrix 0 0 (Np.neg s));;
   hi <- __getitem__ (KInt 1);;
   rate_matrix <- lift (Np.setitem rate_matrix 0 1 (recombination_rate hi));;
   a <- __getitem__ (KInt (-1));;
   b <- __getitem__ (KInt (-1));;
   s <- lift (Np.add (ionization_rate a) (recombination_rate b));;
   rate_matrix <- lift (Np.setitem rate_matrix (-1) (-1) (Np.neg s));;
   lo <- __getitem__ (KInt (-2));;
   rate_matrix <- lift (Np.setitem rate_matrix (-1) (-2) (ionization_rate lo));;
   ret rate_matrix)%meth.

(** ** The equilibrium solver *)

Section Solver.

(** [np.linalg.svd] is an external routine.  It is taken as a function from
    one (Z+1)x(Z+1) slice to the matrix [Vh] of right singular vectors, one
    per row, ordered by descending singular value; the batched call applies
    it to every slice. *)
Variable svd_vh : list (list Q) -> list (list Q).

(** [Element.equilibrium_ionization] (lines 75-104).  Keyword arguments are
    names bound to [None] or to an array; [V[:, -1, :]] is the last row of
    each [Vh]. *)
Definition equilibrium_ionization (kwargs : gmap string (option Np.ndarray3))
  : method (list (list Q)) :=
  (rate_matrix <- match default None (kwargs !! "rate_matrix") with
                  | None => _rate_matrix
                  | Some m => ret m
                  end;;
   let V := map svd_vh (Np.data rate_matrix) in
   last_rows <- lift (rmap (fun vh => py_index vh (-1)) V);;
   let ioneq := map (map Qabs) last_rows in
   let norm := map Np.sum ioneq in
   ret (zip_with (fun row s => map (fun x => x / s)%Q row) ioneq norm))%meth.

End Solver.

(** ** Properties and display *)

(** The properties at lines 44-58 all read an attribute of the first ion:
    [self[0].<attribute>]. *)
Definition first_ion_attribute {A} (attribute : Ion -> A) : method A :=
  (ion <- __getitem__ (KInt 0);;
   ret (attribute ion))%meth.

Section Display.

(** Modelled from the spec: the attributes [atomic_symbol] and
    [element_name] of [fiasco.Ion], which the record above does not carry. *)
Variable atomic_symbol_of : Ion -> string.
Variable element_name_of : Ion -> string.

(** [Element.__repr__] (lines 115-123). *)
Definition __repr__ : method string :=
  (ions <- self_ion_list;;
   let ion_list := PyStr.join PyStr.newline (map ion_name ions) in
   symbol <- first_ion_attribute atomic_symbol_of;;
   number <- self_atomic_number;;
   name <- first_ion_attribute element_name_of;;
   ret ("Element" +:+ PyStr.newline +:+ "-------" +:+ PyStr.newline
        +:+ symbol +:+ " (" +:+ PyStr.str number +:+ ") -- " +:+ name +:+ PyStr.newline
        +:+ PyStr.newline +:+ "Available Ions" +:+ PyStr.newline
        +:+ "--------------" +:+ PyStr.newline +:+ ion_list))%meth.

End Display.

(** ** Construction *)

(** The element identifier: a symbol or name, or an atomic number. *)
Inductive element_id : Type :=
| NameStr (s : string)
| NameInt (n : Z).

Section Construction.

(** Configuration handed through to every ion, not interpreted here. *)
Variable ion_kwargs : Type.

(** [plasmapy.particles.atomic_number]: the species resolver, which raises
    on an identifier it cannot resolve. *)
Variable plasmapy_atomic_number : element_id -> result Z.

(** Modelled from the spec: the constructor of [fiasco.Ion], from the label
    ["<Z> <stage>"], the temperature grid and the configuration. *)
Variable Ion_new : string -> list Q -> ion_kwargs -> Ion.

(** Modelled from the spec: [IonCollection.__init__] keeps the ions it is
    given, in order. *)
Definition IonCollection_init (ions : list Ion) : Element := {| _ion_list := ions |}.

(** [Element.__init__] (lines 32-42); the temperature has passed the unit
    check of [quantity_input]. *)
Definition __init__ (element_name : element_id) (temperature : list Q) (kwargs : ion_kwargs)
  : result Element :=
  let element_name :=
    match element_name with
    | NameStr s => NameStr (PyStr.capitalize s)
    | NameInt n => NameInt n
    end in
  (z <~ plasmapy_atomic_number element_name;
   let ion_list :=
     fold_left
       (fun ion_list i =>
          (ion_list ++ [Ion_new (PyStr.str z +:+ " " +:+ PyStr.str (i + 1)) temperature kwargs])%list)
       (range 0 (z + 1)) [] in
   Ok (IonCollection_init ion_list))%res.

End Construction.

(** ** Concrete collaborators for running the model *)

Module Demo.

Definition atomic_number_of (x : element_id) : result Z :=
  match x with
  | NameStr s =>
      if String.eqb s "H" || String.eqb s "Hydrogen" then Ok 1
      else if String.eqb s "He" || String.eqb s "Helium" then Ok 2
      else if String.eqb s "Li" || String.eqb s "Lithium" then Ok 3
      else if String.eqb s "Fe" || String.eqb s "Iron" then Ok 26
      else Raise InvalidParticleError
  | NameInt n =>
      if (1 <=? n) && (n <=? 118) then Ok n else Raise InvalidParticleError
  end.

(** Rates that depend on the stage and on the temperature, so that the
    entries of a rate matrix can be told apart. *)
Definition ion_of (name : string) (temperature : list Q) (kwargs : unit) : Ion :=
  match PyStr.split name with
  | [z; stage] =>
      match PyStr.int z, PyStr.int stage with
      | Ok z, Ok stage =>
          {| ion_name := name; atomic_number := z; temperature := temperature;
             ionization_rate := map (fun t => t * inject_Z (10 + stage))%Q temperature;
             recombination_rate := map (fun t => t * inject_Z (20 + stage))%Q temperature |}
      | _, _ =>
          {| ion_name := name; atomic_number := 0; temperature := temperature;
             ionization_rate := []; recombination_rate := [] |}
      end
  | _ => {| ion_name := name; atomic_number := 0; temperature := temperature;
            ionization_rate := []; recombination_rate := [] |}
  end.

Definition element (name : string) (temperature : list Q) : result Element :=
  __init__ unit atomic_number_of ion_of (NameStr name) temperature tt.

(** A stand-in decomposition that returns rows of ones: enough to run the
    post-processing of the solver. *)
Definition ones_vh (m : list (list Q)) : list (list Q) :=
  map (fun row => map (fun _ => 1%Q) row) m.

Definition get_or_empty (r : result Element) : Element :=
  match r with
  | Ok e => e
  | Raise _ => {| _ion_list := [] |}
  end.

Definition hydrogen : Element := get_or_empty (element "h" [1%Q; 2%Q]).
Definition lithium : Element := get_or_empty (element "Li" [1%Q; 2%Q]).
Definition iron : Element := get_or_empty (element "iron" [1%Q]).

Definition get_or_empty_matrix (r : result Np.ndarray3) : Np.ndarray3 :=
  match r with
  | Ok a => a
  | Raise _ => {| Np.dim0 := 0; Np.dim1 := 0; Np.dim2 := 0; Np.data := [] |}
  end.

(** The rate matrix of [hydrogen], written out. *)
Definition hydrogen_matrix : Np.ndarray3 :=
  {| Np.dim0 := 2; Np.dim1 := 2; Np.dim2 := 2;
     Np.data := [[[(-32)%Q; 22%Q]; [11%Q; (-34)%Q]]; [[(-64)%Q; 44%Q]; [22%Q; (-68)%Q]]] |}.

(** Hydrogen with rates that balance: the neutral stage does not recombine
    and the bare stage does not ionize. *)
Definition balanced_hydrogen : Element :=
  {| _ion_list := [ {| ion_name := "1 1"; atomic_number := 1; temperature := [1%Q];
                       ionization_rate := [2%Q]; recombination_rate := [0%Q] |};
                    {| ion_name := "1 2"; atomic_number := 1; temperature := [1%Q];
                       ionization_rate := [0%Q]; recombination_rate := [3%Q] |} ] |}.

(** A stand-in decomposition whose last row spans the null space of the
    rate matrix of [balanced_hydrogen], with the sign flipped. *)
Definition null_vh (m : list (list Q)) : list (list Q) :=
  [[2%Q; (-3)%Q]; [(-3)%Q; (-2)%Q]].

(** The collection a unit test would build for a single-stage species. *)
Definition single_stage : Element :=
  {| _ion_list := [ {| ion_name := "0 1"; atomic_number := 0; temperature := [1%Q];
                       ionization_rate := [1%Q]; recombination_rate := [1%Q] |} ] |}.

End Demo.

(** ** Vocabulary of the specification *)

(** An element of atomic number [z] over a grid of [t] temperatures: [z + 1]
    ions, the first of which reports the atomic number and the grid, and each
    of which returns rates of the shape of the grid.  Atomic numbers start
    at 1 (hydrogen). *)
Definition well_formed (self : Element) (z t : nat) : bool :=
  (1 <=? z)%nat
  && (length (_ion_list self) =? S z)%nat
  && match _ion_list self with
     | ion0 :: _ => (atomic_number ion0 =? Z.of_nat z) && (length (temperature ion0) =? t)%nat
     | [] => false
     end
  && forallb (fun ion => (length (ionization_rate ion) =? t)%nat
                         && (length (recombination_rate ion) =? t)%nat)
             (_ion_list self).

(** [ionization_rate_i(t)] and [recombination_rate_i(t)]. *)
Definition ionization_rate_at (self : Element) (i t : nat) : option Q :=
  match _ion_list self !! i with
  | Some ion => ionization_rate ion !! t
  | None => None
  end.

Definition recombination_rate_at (self : Element) (i t : nat) : option Q :=
  match _ion_list self !! i with
  | Some ion => recombination_rate ion !! t
  | None => None
  end.

(** The entry [M[t, i, j]] as the specification words it: the balance term on
    the diagonal, ionization from the stage below, recombination from the
    stage above, zero elsewhere. *)
Definition spec_entry (self : Element) (t i j : nat) : option Q :=
  if decide (j = i) then
    match ionization_rate_at self i t, recombination_rate_at self i t with
    | Some a, Some b => Some (- (a + b))%Q
    | _, _ => None
    end
  else if decide (i = S j) then ionization_rate_at self j t
  else if decide (j = S i) then recombination_rate_at self j t
  else Some 0%Q.

(** The sum of column [j] of slice [t], over rows [0..n-1]. *)
Definition column_sum (a : Np.ndarray3) (t j n : nat) : Q :=
  Np.sum (map (fun i => default 0%Q (Np.get a t i j)) (seq 0 n)).

(** An array whose entries fill its shape [t x n x m]. *)
Definition shaped (a : Np.ndarray3) (t n m : nat) : Prop :=
  Np.dim0 a = t /\ Np.dim1 a = n /\ Np.dim2 a = m /\
  length (Np.data a) = t /\
  Forall (fun slice => length slice = n /\ Forall (fun row => length row = m) slice) (Np.data a).

(** A method that leaves the instance as it found it. *)
Definition reads_only {A} (m : method A) : Prop := forall self, snd (m self) = self.

(** The rates of stage [i] at sample [t], as numbers. *)
Definition I_ (self : Element) (i t : nat) : Q := default 0%Q (ionization_rate_at self i t).
Definition R_ (self : Element) (i t : nat) : Q := default 0%Q (recombination_rate_at self i t).

(** What is relied upon of [np.linalg.svd] on an [n x n] slice: [Vh] has a
    last row, of length [n], which is not the zero vector (its rows have
    norm one). *)
Definition svd_contract (svd_vh : list (list Q) -> list (list Q)) (n : nat) : Prop :=
  forall m, length m = n -> Forall (fun row => length row = n) m ->
    exists v, last (svd_vh m) = Some v /\ length v = n /\ Exists (fun x => ~ (x == 0)%Q) v.

(** The fractions as the specification words them: absolute values of the
    vector, divided by their sum. *)
Definition normalized_abs (v : list Q) : list Q :=
  map (fun x => Qabs x / Np.sum (map Qabs v))%Q v.

(** The product of one row of a slice with a vector of populations. *)
Definition dot (row x : list Q) : Q := Np.sum (zip_with Qmult row x).

(** ** The model at work *)

Example split_two : PyStr.split "Fe 1" = ["Fe"; "1"].
Proof. reflexivity. Qed.
Example split_ws : PyStr.split "  Fe    14+ " = ["Fe"; "14+"].
Proof. reflexivity. Qed.
Example split_one : PyStr.split "Fe" = ["Fe"].
Proof. reflexivity. Qed.
Example int_ex1 : PyStr.int "14" = Ok 14.
Proof. reflexivity. Qed.
Example int_ex2 : PyStr.int "-1" = Ok (-1).
Proof. reflexivity. Qed.
Example int_ex3 : PyStr.int "1_0" = Ok 10.
Proof. reflexivity. Qed.
Example int_ex4 : PyStr.int "1__0" = Raise ValueError.
Proof. reflexivity. Qed.
Example int_ex5 : PyStr.int "XIV" = Raise ValueError.
Proof. reflexivity. Qed.
Example int_ex6 : PyStr.int "" = Raise ValueError.
Proof. reflexivity. Qed.
Example str_ex : PyStr.str (-27) = "-27" /\ PyStr.str 0 = "0".
Proof. split; reflexivity. Qed.
Example capitalize_ex : PyStr.capitalize "fE" = "Fe" /\ PyStr.capitalize "IRON" = "Iron".
Proof. split; reflexivity. Qed.
Example strip_ex : PyStr.strip (Ascii.eqb "+") "+12++" = "12".
Proof. reflexivity. Qed.
Example zeros_ex : (Np.data <$$> Np.zeros 1 2 2)%res = Ok [[[0%Q; 0%Q]; [0%Q; 0%Q]]].
Proof. reflexivity. Qed.
Example py_index_ex : py_index [10; 20; 30] (-1) = Ok 30 /\ py_index [10; 20; 30] 3 = Raise IndexError
                      /\ py_index [10; 20; 30] (-4) = Raise IndexError.
Proof. repeat split; reflexivity. Qed.
Example range_ex : range 1 4 = [1; 2; 3] /\ range 1 1 = [] /\ range 1 0 = [].
Proof. repeat split; reflexivity. Qed.
Example hydrogen_rate_matrix :
  (e <~ Demo.element "h" [1%Q; 2%Q]; Np.data <$$> fst (_rate_matrix e))%res
  = Ok [[[(-32)%Q; 22%Q]; [11%Q; (-34)%Q]]; [[(-64)%Q; 44%Q]; [22%Q; (-68)%Q]]].
Proof. reflexivity. Qed.
Example lithium_rate_matrix :
  (e <~ Demo.element "lithium" [1%Q]; Np.data <$$> fst (_rate_matrix e))%res
  = Ok [[[(-32)%Q; 22%Q; 0%Q; 0%Q]; [11%Q; (-34)%Q; 23%Q; 0%Q];
         [0%Q; 12%Q; (-36)%Q; 24%Q]; [0%Q; 0%Q; 13%Q; (-38)%Q]]].
Proof. reflexivity. Qed.
Example lithium_fractions :
  (e <~ Demo.element "Li" [1%Q; 2%Q]; fst (equilibrium_ionization Demo.ones_vh ∅ e))%res
  = Ok [[1 # 4; 1 # 4; 1 # 4; 1 # 4]; [1 # 4; 1 # 4; 1 # 4; 1 # 4]]%Q.
Proof. reflexivity. Qed.
Example unknown_element : Demo.element "Xx" [1%Q] = Raise InvalidParticleError.
Proof. reflexivity. Qed.

(** ** Lemmas on strings *)

Lemma sapp_nil s : "" +:+ s = s.
Proof. reflexivity. Qed.

Lemma sapp_cons c s t : String c s +:+ t = String c (s +:+ t).
Proof. reflexivity. Qed.

Lemma sapp_nil_r s : s +:+ "" = s.
Proof. induction s as [|c s IH]; [done|]. by rewrite sapp_cons, IH. Qed.

Ltac sapp := rewrite ?sapp_cons, ?sapp_nil.

Section StringLemmas.

Import PyStr.

Lemma all_chars_app p s t : all_chars p (s +:+ t) = (all_chars p s && all_chars p t)%bool.
Proof.
  induction s as [|c s IH]; sapp; simpl; [done|].
  rewrite IH. by destruct (p c).
Qed.

Lemma all_chars_impl (p q : ascii -> bool) s :
  (forall c, p c = true -> q c = true) -> all_chars p s = true -> all_chars q s = true.
Proof.
  intros Hpq. induction s as [|c s IH]; simpl; [done|].
  intros [Hc Hs]%andb_prop. rewrite (Hpq _ Hc). simpl. auto.
Qed.

Lemma is_token_inv s :
  is_token s = true -> s <> "" /\ all_chars (fun c => negb (isspace c)) s = true.
Proof. destruct s; simpl; [done|]. intros H. split; [done|exact H]. Qed.

Lemma is_token_intro s :
  s <> "" -> all_chars (fun c => negb (isspace c)) s = true -> is_token s = true.
Proof. destruct s; [done|]. intros _ H. exact H. Qed.

Lemma starts_token_app w s :
  is_token w = true -> starts_token (w +:+ s) = true.
Proof.
  destruct w as [|c w]; sapp; simpl; [done|]. by intros [Hc _]%andb_prop.
Qed.

(** A token followed by something that does not continue it is the first
    item of the split. *)
Lemma split_token_app w s :
  is_token w = true -> starts_token s = false -> split (w +:+ s) = w :: split s.
Proof.
  induction w as [|c w IH]; [done|].
  intros Hw Hs. simpl in Hw. apply andb_prop in Hw as [Hc Hw].
  apply negb_true_iff in Hc. sapp. simpl. rewrite Hc.
  destruct w as [|c' w].
  - sapp. by rewrite Hs.
  - assert (Htok : is_token (String c' w) = true) by exact Hw.
    rewrite (starts_token_app _ s Htok), (IH Htok Hs). done.
Qed.

Lemma split_token w : is_token w = true -> split w = [w].
Proof.
  intros Hw. pose proof (split_token_app w "" Hw eq_refl) as H.
  by rewrite sapp_nil_r in H.
Qed.

Lemma split_two_tokens w t :
  is_token w = true -> is_token t = true -> split (w +:+ " " +:+ t) = [w; t].
Proof.
  intros Hw Ht. rewrite split_token_app; [|done|done].
  sapp. simpl. by rewrite split_token.
Qed.

(** Without whitespace there is at most one item. *)
Lemma split_no_space s :
  all_chars (fun c => negb (isspace c)) s = true -> split s = [] \/ split s = [s].
Proof.
  destruct s as [|c s]; [by left|]. intros H. right. by apply split_token.
Qed.

Lemma lstrip_id p s : all_chars (fun c => negb (p c)) s = true -> lstrip p s = s.
Proof.
  destruct s as [|c s]; simpl; [done|].
  intros [Hc _]%andb_prop. apply negb_true_iff in Hc. by rewrite Hc.
Qed.

Lemma rstrip_id p s : all_chars (fun c => negb (p c)) s = true -> rstrip p s = s.
Proof.
  induction s as [|c s IH]; simpl; [done|].
  intros [Hc Hs]%andb_prop. apply negb_true_iff in Hc.
  rewrite (IH Hs). destruct s; by rewrite ?Hc.
Qed.

Lemma strip_id p s : all_chars (fun c => negb (p c)) s = true -> strip p s = s.
Proof. intros H. unfold strip. by rewrite lstrip_id, rstrip_id. Qed.

Lemma rstrip_snoc p s c :
  p c = true -> rstrip p (s +:+ String c "") = rstrip p s.
Proof.
  intros Hc. induction s as [|a s IH]; sapp; simpl.
  - by rewrite Hc.
  - by rewrite IH.
Qed.

Lemma lstrip_app_id p s t :
  s <> "" -> all_chars (fun c => negb (p c)) s = true -> lstrip p (s +:+ t) = s +:+ t.
Proof.
  destruct s as [|c s]; [done|]. sapp. simpl.
  intros _ [Hc _]%andb_prop. apply negb_true_iff in Hc. by rewrite Hc.
Qed.

Lemma contains_false c s :
  all_chars (fun a => negb (Ascii.eqb a c)) s = true -> contains c s = false.
Proof.
  induction s as [|a s IH]; simpl; [done|].
  intros [Ha Hs]%andb_prop. apply negb_true_iff in Ha. by rewrite Ha, IH.
Qed.

Lemma contains_snoc c s : contains c (s +:+ String c "") = true.
Proof.
  induction s as [|a s IH]; sapp; simpl.
  - by rewrite Ascii.eqb_refl.
  - rewrite IH. by destruct (Ascii.eqb a c).
Qed.

Lemma string_of_uint_digits d : all_chars is_digit (NilEmpty.string_of_uint d) = true.
Proof. induction d; simpl; auto. Qed.

Lemma digits_cons c s d :
  digit_of c = Some d -> s <> "" -> all_chars is_digit s = true ->
  digits (String c s) = option_map d (digits s).
Proof.
  intros Hc Hs Hdig. cbn [digits]. rewrite Hc.
  destruct s as [|c' s']; [done|].
  simpl in Hdig. apply andb_prop in Hdig as [Hc' _].
  replace (Ascii.eqb c' "_") with false; [done|].
  symmetry. apply Ascii.eqb_neq. intros ->. discriminate Hc'.
Qed.

Lemma string_of_uint_nonempty d : d <> Decimal.Nil -> NilEmpty.string_of_uint d <> "".
Proof. by destruct d. Qed.

Lemma digits_string_of_uint d :
  d <> Decimal.Nil -> digits (NilEmpty.string_of_uint d) = Some d.
Proof.
  induction d as [|d IH|d IH|d IH|d IH|d IH|d IH|d IH|d IH|d IH|d IH]; [done|..]; intros _;
    (assert (Hd : d = Decimal.Nil \/ d <> Decimal.Nil)
       by (destruct d; [by left|by right..]));
    (destruct Hd as [->|Hd]; [reflexivity|]);
    cbn [NilEmpty.string_of_uint];
    (erewrite digits_cons;
       [|reflexivity|by apply string_of_uint_nonempty|by apply string_of_uint_digits]);
    by rewrite (IH Hd).
Qed.

Lemma sign_of_digit c s : is_digit c = true -> sign_of (String c s) = (false, String c s).
Proof.
  destruct c as [[] [] [] [] [] [] [] []]; intros H; try discriminate H; reflexivity.
Qed.

Lemma is_digit_not_space c : is_digit c = true -> negb (isspace c) = true.
Proof.
  destruct c as [[] [] [] [] [] [] [] []]; intros H; try discriminate H; reflexivity.
Qed.

(** Parsing the decimal rendering of a non-empty digit sequence. *)
Lemma int_string_of_int (i : Decimal.int) :
  match i with Decimal.Pos d | Decimal.Neg d => d <> Decimal.Nil end ->
  int (NilEmpty.string_of_int i) = Ok (Z.of_int i).
Proof.
  destruct i as [d|d]; intros Hd; unfold int; cbn [NilEmpty.string_of_int].
  - rewrite strip_id
      by (eapply all_chars_impl; [apply is_digit_not_space|apply string_of_uint_digits]).
    pose proof (string_of_uint_digits d) as Hdig.
    pose proof (digits_string_of_uint d Hd) as Hpar.
    destruct (NilEmpty.string_of_uint d) as [|c s] eqn:E; [by destruct d|].
    simpl in Hdig. apply andb_prop in Hdig as [Hc _].
    rewrite (sign_of_digit _ _ Hc). by rewrite Hpar.
  - rewrite strip_id.
    + cbn [sign_of]. by rewrite digits_string_of_uint.
    + simpl. eapply all_chars_impl; [apply is_digit_not_space|apply string_of_uint_digits].
Qed.

Lemma to_int_nonnil n :
  match Z.to_int n with Decimal.Pos d | Decimal.Neg d => d <> Decimal.Nil end.
Proof.
  destruct n; simpl; [done|apply DecimalPos.Unsigned.to_uint_nonnil..].
Qed.

(** [int(str(n)) == n]. *)
Lemma int_str n : int (str n) = Ok n.
Proof.
  unfold str. rewrite int_string_of_int by apply to_int_nonnil.
  by rewrite DecimalZ.of_to.
Qed.

Lemma str_numchars n : all_chars is_numchar (str n) = true.
Proof.
  assert (H : forall d, all_chars is_numchar (NilEmpty.string_of_uint d) = true).
  { intros d. eapply all_chars_impl; [|apply string_of_uint_digits].
    intros c Hc. unfold is_numchar. by rewrite Hc. }
  unfold str. destruct (Z.to_int n); simpl; apply H.
Qed.

Lemma str_nonempty n : str n <> "".
Proof.
  unfold str. pose proof (to_int_nonnil n) as H.
  destruct (Z.to_int n) as [d|d]; simpl; [by destruct d|done].
Qed.

Lemma numchar_not_space c : is_numchar c = true -> negb (isspace c) = true.
Proof.
  destruct c as [[] [] [] [] [] [] [] []]; intros H; try discriminate H; reflexivity.
Qed.

Lemma numchar_not_plus c : is_numchar c = true -> negb (Ascii.eqb c "+") = true.
Proof.
  destruct c as [[] [] [] [] [] [] [] []]; intros H; try discriminate H; reflexivity.
Qed.

Lemma numchar_not_plus' c : is_numchar c = true -> negb (Ascii.eqb "+" c) = true.
Proof.
  destruct c as [[] [] [] [] [] [] [] []]; intros H; try discriminate H; reflexivity.
Qed.

Lemma str_is_token n : is_token (str n) = true.
Proof.
  apply is_token_intro; [apply str_nonempty|].
  eapply all_chars_impl; [apply numchar_not_space|apply str_numchars].
Qed.

Lemma str_plus_is_token n : is_token (str n +:+ "+") = true.
Proof.
  apply is_token_intro.
  - pose proof (str_nonempty n). destruct (str n); [done|]. by sapp.
  - rewrite all_chars_app. rewrite (all_chars_impl _ _ _ numchar_not_space (str_numchars n)).
    reflexivity.
Qed.

End StringLemmas.

(** ** Lemmas on indexed access *)

(** The stage form ["<n>"] denotes position [n - 1]. *)
Lemma ion_position_stage n : ion_position (PyStr.str n) = Ok (n - 1).
Proof.
  unfold ion_position.
  rewrite contains_false
    by (eapply all_chars_impl; [apply numchar_not_plus|apply str_numchars]).
  by rewrite int_str.
Qed.

(** The charge form ["<n>+"] denotes position [n]. *)
Lemma ion_position_charge n : ion_position (PyStr.str n +:+ "+") = Ok n.
Proof.
  unfold ion_position. rewrite contains_snoc. unfold PyStr.strip.
  assert (Hnp : PyStr.all_chars (fun c => negb (Ascii.eqb "+" c)) (PyStr.str n) = true)
    by (eapply all_chars_impl; [apply numchar_not_plus'|apply str_numchars]).
  rewrite lstrip_app_id; [|apply str_nonempty|done].
  rewrite rstrip_snoc by reflexivity.
  rewrite rstrip_id by done. apply int_str.
Qed.

(** A two-token key is resolved from its second token alone. *)
Lemma getitem_two_tokens w tok self :
  PyStr.is_token w = true -> PyStr.is_token tok = true ->
  __getitem__ (KStr (w +:+ " " +:+ tok)) self
  = (value <- lift (ion_position tok);; IonCollection.__getitem__ value)%meth self.
Proof.
  intros Hw Ht. unfold __getitem__, key_position.
  by rewrite split_two_tokens.
Qed.

Lemma getitem_position w tok n self :
  PyStr.is_token w = true -> PyStr.is_token tok = true -> ion_position tok = Ok n ->
  __getitem__ (KStr (w +:+ " " +:+ tok)) self = __getitem__ (KInt n) self.
Proof.
  intros Hw Ht Hn. rewrite getitem_two_tokens by done.
  unfold bind, lift. by rewrite Hn.
Qed.

(** ** Lemmas on arrays *)

Lemma axis_index_nat n (i : nat) : (i < n)%nat -> Np.axis_index n (Z.of_nat i) = Ok i.
Proof.
  intros Hi. unfold Np.axis_index.
  replace (Z.of_nat i <? 0) with false by (symmetry; apply Z.ltb_ge; lia).
  replace (0 <=? Z.of_nat i) with true by (symmetry; apply Z.leb_le; lia).
  replace (Z.of_nat i <? Z.of_nat n) with true by (symmetry; apply Z.ltb_lt; lia).
  simpl. by rewrite Nat2Z.id.
Qed.

Lemma axis_index_neg n (k : nat) :
  (1 <= k <= n)%nat -> Np.axis_index n (- Z.of_nat k) = Ok (n - k)%nat.
Proof.
  intros Hk. unfold Np.axis_index.
  replace (- Z.of_nat k <? 0) with true by (symmetry; apply Z.ltb_lt; lia).
  replace (0 <=? - Z.of_nat k + Z.of_nat n) with true by (symmetry; apply Z.leb_le; lia).
  replace (- Z.of_nat k + Z.of_nat n <? Z.of_nat n) with true by (symmetry; apply Z.ltb_lt; lia).
  simpl. f_equal. lia.
Qed.

Lemma axis_index_lt n i k : Np.axis_index n i = Ok k -> (k < n)%nat.
Proof.
  unfold Np.axis_index. intros H.
  destruct ((0 <=? _) && _) eqn:E; [|done].
  apply andb_prop in E as [E1 E2]. apply Z.leb_le in E1. apply Z.ltb_lt in E2.
  injection H as <-. lia.
Qed.

Lemma zeros_shaped t (n m : nat) :
  exists a, Np.zeros t (Z.of_nat n) (Z.of_nat m) = Ok a /\ shaped a t n m
    /\ forall k i j, (k < t)%nat -> (i < n)%nat -> (j < m)%nat -> Np.get a k i j = Some 0%Q.
Proof.
  unfold Np.zeros.
  replace (Z.of_nat n <? 0) with false by (symmetry; apply Z.ltb_ge; lia).
  replace (Z.of_nat m <? 0) with false by (symmetry; apply Z.ltb_ge; lia).
  simpl. rewrite !Nat2Z.id. eexists. split; [reflexivity|]. split.
  - repeat split; simpl; rewrite ?length_replicate; try done.
    apply Forall_replicate. split; [by rewrite length_replicate|].
    apply Forall_replicate. by rewrite length_replicate.
  - intros k i j Hk Hi Hj. unfold Np.get. simpl.
    rewrite lookup_replicate_2 by done.
    rewrite lookup_replicate_2 by done.
    by rewrite lookup_replicate_2.
Qed.

(** What [a[:, i, j] = v] does to the entries. *)
Lemma setitem_spec a t n m iz jz (i j : nat) v :
  shaped a t n m ->
  Np.axis_index n iz = Ok i -> Np.axis_index m jz = Ok j -> length v = t ->
  exists a', Np.setitem a iz jz v = Ok a' /\ shaped a' t n m
    /\ forall k r c, Np.get a' k r c
                     = if decide (r = i /\ c = j) then v !! k else Np.get a k r c.
Proof.
  intros (H0 & H1 & H2 & Hlen & Hall) Hi Hj Hv.
  pose proof (axis_index_lt _ _ _ Hi) as Hin.
  pose proof (axis_index_lt _ _ _ Hj) as Hjm.
  unfold Np.setitem. rewrite H1, Hi, H2, Hj. simpl.
  unfold Np.broadcast_to. rewrite H0. rewrite decide_True by done. simpl.
  eexists. split; [reflexivity|]. split.
  - repeat split; simpl; try done.
    + rewrite length_zip_with. lia.
    + apply Forall_forall. intros slice Hin'.
      apply list_elem_of_lookup in Hin' as [k Hk].
      apply lookup_zip_with_Some in Hk as (s0 & x & -> & Hs0 & Hx).
      rewrite Forall_forall in Hall.
      destruct (Hall s0) as [Hr Hc]; [by eapply list_elem_of_lookup_2|].
      split; [by rewrite length_alter|].
      apply Forall_forall. intros row Hrow.
      apply list_elem_of_lookup in Hrow as [r Hr'].
      rewrite Forall_forall in Hc.
      destruct (decide (r = i)) as [->|Hne].
      * rewrite list_lookup_alter_eq in Hr'.
        destruct (s0 !! i) as [row0|] eqn:E; [|done]. simpl in Hr'. injection Hr' as <-.
        rewrite length_insert. apply Hc. by eapply list_elem_of_lookup_2.
      * rewrite list_lookup_alter_ne in Hr' by done.
        apply Hc. by eapply list_elem_of_lookup_2.
  - intros k r c. unfold Np.get. simpl.
    rewrite lookup_zip_with.
    destruct (Np.data a !! k) as [slice|] eqn:Ek; simpl.
    + assert (Hk : (k < length v)%nat).
      { rewrite Hv, <- Hlen. by eapply lookup_lt_Some. }
      destruct (lookup_lt_is_Some_2 v k Hk) as [x Hx]. rewrite Hx. simpl.
      rewrite Forall_forall in Hall.
      destruct (Hall slice) as [Hr Hc]; [by eapply list_elem_of_lookup_2|].
      destruct (decide (r = i)) as [->|Hne].
      * rewrite list_lookup_alter_eq.
        assert (Hi' : (i < length slice)%nat) by lia.
        destruct (lookup_lt_is_Some_2 slice i Hi') as [row Hrow]. rewrite Hrow. simpl.
        rewrite Forall_forall in Hc.
        assert (Hrl : length row = m) by (apply Hc; by eapply list_elem_of_lookup_2).
        destruct (decide (c = j)) as [->|Hnc].
        -- rewrite decide_True by done. apply list_lookup_insert_eq. lia.
        -- rewrite decide_False by tauto. by apply list_lookup_insert_ne.
      * rewrite decide_False by tauto. by rewrite list_lookup_alter_ne.
    + destruct (decide _); [|done].
      symmetry. apply lookup_ge_None. rewrite Hv, <- Hlen. by apply lookup_ge_None.
Qed.

(** ** Lemmas on methods *)

Lemma bind_ok {A B} (m : method A) (f : A -> method B) self a self' :
  m self = (Ok a, self') -> bind m f self = f a self'.
Proof. intros H. unfold bind. by rewrite H. Qed.

Lemma bind_raise {A B} (m : method A) (f : A -> method B) self e self' :
  m self = (Raise e, self') -> bind m f self = (Raise e, self').
Proof. intros H. unfold bind. by rewrite H. Qed.

Ltac step H := rewrite (bind_ok _ _ _ _ _ H); cbv beta.

Lemma py_index_nat {A} (l : list A) (i : nat) x :
  l !! i = Some x -> py_index l (Z.of_nat i) = Ok x.
Proof.
  intros H. pose proof (lookup_lt_Some _ _ _ H) as Hlt. unfold py_index.
  replace (Z.of_nat i <? 0) with false by (symmetry; apply Z.ltb_ge; lia).
  replace (0 <=? Z.of_nat i) with true by (symmetry; apply Z.leb_le; lia).
  replace (Z.of_nat i <? Z.of_nat (length l)) with true by (symmetry; apply Z.ltb_lt; lia).
  simpl. by rewrite Nat2Z.id, H.
Qed.

Lemma py_index_neg {A} (l : list A) (k : nat) x :
  (1 <= k <= length l)%nat -> l !! (length l - k)%nat = Some x ->
  py_index l (- Z.of_nat k) = Ok x.
Proof.
  intros Hk H. pose proof (lookup_lt_Some _ _ _ H) as Hlt. unfold py_index.
  replace (- Z.of_nat k <? 0) with true by (symmetry; apply Z.ltb_lt; lia).
  replace (0 <=? - Z.of_nat k + Z.of_nat (length l)) with true
    by (symmetry; apply Z.leb_le; lia).
  replace (- Z.of_nat k + Z.of_nat (length l) <? Z.of_nat (length l)) with true
    by (symmetry; apply Z.ltb_lt; lia).
  simpl.
  replace (Z.to_nat (- Z.of_nat k + Z.of_nat (length l))) with (length l - k)%nat by lia.
  by rewrite H.
Qed.

Lemma getitem_int i self :
  __getitem__ (KInt i) self = (py_index (_ion_list self) i, self).
Proof. reflexivity. Qed.

Lemma getitem_nat (i : nat) ion self :
  _ion_list self !! i = Some ion -> __getitem__ (KInt (Z.of_nat i)) self = (Ok ion, self).
Proof. intros H. by rewrite getitem_int, (py_index_nat _ _ _ H). Qed.

Lemma getitem_neg (k : nat) ion self :
  (1 <= k <= length (_ion_list self))%nat ->
  _ion_list self !! (length (_ion_list self) - k)%nat = Some ion ->
  __getitem__ (KInt (- Z.of_nat k)) self = (Ok ion, self).
Proof. intros Hk H. by rewrite getitem_int, (py_index_neg _ _ _ Hk H). Qed.

Lemma reads_only_ret {A} (a : A) : reads_only (ret a).
Proof. by intros self. Qed.

Lemma reads_only_lift {A} (r : result A) : reads_only (lift r).
Proof. by intros self. Qed.

Lemma reads_only_bind {A B} (m : method A) (f : A -> method B) :
  reads_only m -> (forall a, reads_only (f a)) -> reads_only (bind m f).
Proof.
  intros Hm Hf self. unfold bind. specialize (Hm self).
  destruct (m self) as [[a|e] self']; simpl in *; subst; [apply Hf|done].
Qed.

Lemma reads_only_mfold {A B} (f : B -> A -> method B) l b :
  (forall b x, reads_only (f b x)) -> reads_only (mfold f l b).
Proof.
  intros Hf. revert b. induction l as [|x l IH]; intros b; simpl.
  - apply reads_only_ret.
  - apply reads_only_bind; [apply Hf|apply IH].
Qed.

Lemma reads_only_getitem value : reads_only (__getitem__ value).
Proof.
  destruct value; simpl.
  - by intros self.
  - apply reads_only_bind; [apply reads_only_lift|by intros a self].
Qed.

Create HintDb reads discriminated.
#[local] Hint Resolve reads_only_ret reads_only_lift reads_only_getitem : reads.
#[local] Hint Extern 2 (reads_only (bind _ _)) => apply reads_only_bind; [|intros ?] : reads.
#[local] Hint Extern 2 (reads_only (mfold _ _ _)) => apply reads_only_mfold; intros ? ? : reads.

Lemma reads_only_atomic_number : reads_only self_atomic_number.
Proof. unfold self_atomic_number. auto with reads. Qed.

Lemma reads_only_temperature : reads_only IonCollection.temperature.
Proof.
  unfold IonCollection.temperature. apply reads_only_bind; [|auto with reads].
  apply (reads_only_getitem (KInt 0)).
Qed.

#[local] Hint Resolve reads_only_atomic_number reads_only_temperature : reads.

Lemma reads_only_interior_row a i : reads_only (interior_row a i).
Proof. unfold interior_row. auto 20 with reads. Qed.

#[local] Hint Resolve reads_only_interior_row : reads.

Lemma reads_only_rate_matrix : reads_only _rate_matrix.
Proof. unfold _rate_matrix. auto 40 with reads. Qed.

Lemma reads_only_equilibrium_ionization svd_vh kwargs :
  reads_only (equilibrium_ionization svd_vh kwargs).
Proof.
  unfold equilibrium_ionization.
  apply reads_only_bind; [|intros ?; auto 10 with reads].
  destruct (default None (kwargs !! "rate_matrix")); [auto with reads|].
  apply reads_only_rate_matrix.
Qed.

(** ** The rate matrix *)

Lemma well_formed_inv self z t :
  well_formed self z t = true ->
  (1 <= z)%nat /\ length (_ion_list self) = S z
  /\ (exists ion0, _ion_list self !! 0%nat = Some ion0
                   /\ atomic_number ion0 = Z.of_nat z /\ length (temperature ion0) = t)
  /\ (forall i, (i <= z)%nat ->
        exists ion, _ion_list self !! i = Some ion
                    /\ length (ionization_rate ion) = t
                    /\ length (recombination_rate ion) = t).
Proof.
  unfold well_formed. intros H.
  apply andb_prop in H as [H Hall]. apply andb_prop in H as [H H0].
  apply andb_prop in H as [Hz Hlen].
  apply Nat.leb_le in Hz. apply Nat.eqb_eq in Hlen.
  split; [done|]. split; [done|]. split.
  - destruct (_ion_list self) as [|ion0 l]; [done|].
    apply andb_prop in H0 as [Ha Ht]. apply Z.eqb_eq in Ha. apply Nat.eqb_eq in Ht.
    by exists ion0.
  - intros i Hi.
    destruct (lookup_lt_is_Some_2 (_ion_list self) i) as [ion Hion]; [lia|].
    exists ion. split; [done|].
    rewrite forallb_forall in Hall.
    specialize (Hall ion). rewrite <- list_elem_of_In in Hall.
    specialize (Hall (list_elem_of_lookup_2 _ _ _ Hion)).
    apply andb_prop in Hall as [Hi1 Hi2].
    apply Nat.eqb_eq in Hi1. apply Nat.eqb_eq in Hi2. done.
Qed.

Lemma add_same_length x y :
  length x = length y -> Np.add x y = Ok (zip_with Qplus x y).
Proof. intros H. unfold Np.add. by rewrite decide_True. Qed.

Lemma balance_lookup x y k :
  Np.neg (zip_with Qplus x y) !! k
  = match x !! k, y !! k with
    | Some a, Some b => Some (- (a + b))%Q
    | _, _ => None
    end.
Proof.
  unfold Np.neg. rewrite list_lookup_fmap, lookup_zip_with.
  destruct (x !! k); simpl; [|done]. by destruct (y !! k).
Qed.

Lemma balance_length x y t :
  length x = t -> length y = t -> length (Np.neg (zip_with Qplus x y)) = t.
Proof. intros Hx Hy. unfold Np.neg. rewrite length_map, length_zip_with. lia. Qed.

(** One pass of the loop writes row [i] as the specification words it and
    leaves every other entry alone. *)
Lemma interior_row_spec self z t a (i : nat) :
  well_formed self z t = true -> shaped a t (S z) (S z) -> (1 <= i < z)%nat ->
  exists a', interior_row a (Z.of_nat i) self = (Ok a', self) /\ shaped a' t (S z) (S z)
    /\ forall k r c, Np.get a' k r c
         = if decide (r = i /\ (c = i \/ i = S c \/ c = S i))
           then spec_entry self k i c else Np.get a k r c.
Proof.
  intros Hwf Ha Hi.
  destruct (well_formed_inv _ _ _ Hwf) as (Hz & Hlen & _ & Hions).
  destruct (Hions i) as (ion & Hion & HI & HR); [lia|].
  destruct (Hions (i - 1)%nat) as (lo & Hlo & HIlo & _); [lia|].
  destruct (Hions (S i)) as (hi & Hhi & _ & HRhi); [lia|].
  destruct (setitem_spec a t (S z) (S z) (Z.of_nat i) (Z.of_nat i) i i
              (Np.neg (zip_with Qplus (ionization_rate ion) (recombination_rate ion))))
    as (a1 & E1 & S1 & G1);
    [done|apply axis_index_nat; lia|apply axis_index_nat; lia|by apply balance_length|].
  destruct (setitem_spec a1 t (S z) (S z) (Z.of_nat i) (Z.of_nat i - 1) i (i - 1)%nat
              (ionization_rate lo))
    as (a2 & E2 & S2 & G2);
    [done|apply axis_index_nat; lia
    |replace (Z.of_nat i - 1) with (Z.of_nat (i - 1)) by lia; apply axis_index_nat; lia
    |done|].
  destruct (setitem_spec a2 t (S z) (S z) (Z.of_nat i) (Z.of_nat i + 1) i (S i)
              (recombination_rate hi))
    as (a3 & E3 & S3 & G3);
    [done|apply axis_index_nat; lia
    |replace (Z.of_nat i + 1) with (Z.of_nat (S i)) by lia; apply axis_index_nat; lia
    |done|].
  exists a3. split; [|split; [done|]].
  - unfold interior_row.
    step (getitem_nat _ _ _ Hion). step (getitem_nat _ _ _ Hion).
    rewrite add_same_length by congruence.
    unfold lift at 1. unfold bind at 1. cbv beta iota.
    rewrite E1. unfold lift at 1. unfold bind at 1. cbv beta iota.
    replace (Z.of_nat i - 1) with (Z.of_nat (i - 1)) by lia.
    step (getitem_nat _ _ _ Hlo).
    replace (Z.of_nat (i - 1)) with (Z.of_nat i - 1) by lia.
    rewrite E2. unfold lift at 1. unfold bind at 1. cbv beta iota.
    replace (Z.of_nat i + 1) with (Z.of_nat (S i)) by lia.
    step (getitem_nat _ _ _ Hhi).
    replace (Z.of_nat (S i)) with (Z.of_nat i + 1) by lia.
    rewrite E3. reflexivity.
  - intros k r c. rewrite G3, G2, G1, balance_lookup.
    unfold spec_entry, ionization_rate_at, recombination_rate_at.
    repeat case_decide; try lia; destruct_and?; subst;
      rewrite ?Hion, ?Hlo, ?Hhi; try done; try (exfalso; lia).
Qed.

Lemma interior_loop_spec self z t (l : list nat) :
  well_formed self z t = true -> Forall (fun i => 1 <= i < z)%nat l ->
  forall a, shaped a t (S z) (S z) ->
  exists a', mfold interior_row (map Z.of_nat l) a self = (Ok a', self)
    /\ shaped a' t (S z) (S z)
    /\ forall k r c, Np.get a' k r c
         = if decide (r ∈ l /\ (c = r \/ r = S c \/ c = S r))
           then spec_entry self k r c else Np.get a k r c.
Proof.
  intros Hwf. induction l as [|i l IH]; intros Hl a Ha.
  - exists a. split; [done|]. split; [done|]. intros k r c.
    rewrite decide_False; [done|]. intros [H _]. by apply elem_of_nil in H.
  - apply Forall_cons in Hl as [Hi Hl].
    destruct (interior_row_spec self z t a i Hwf Ha Hi) as (a1 & E1 & S1 & G1).
    destruct (IH Hl a1 S1) as (a' & E' & S' & G').
    exists a'. split; [|split; [done|]].
    + cbn [map mfold]. by step E1.
    + intros k r c. rewrite G', G1.
      destruct (decide (r ∈ l /\ (c = r \/ r = S c \/ c = S r))) as [[Hin Hn]|HB].
      * rewrite decide_True; [done|]. split; [by apply elem_of_cons; right|done].
      * destruct (decide (r = i /\ (c = i \/ i = S c \/ c = S i))) as [[-> Hn]|HC].
        -- rewrite decide_True; [done|]. split; [apply elem_of_cons; by left|done].
        -- rewrite decide_False; [done|]. intros [Hin Hn].
           apply elem_of_cons in Hin as [->|Hin]; [by apply HC|by apply HB].
Qed.

Lemma range_from_one (z : nat) : range 1 (Z.of_nat z) = map Z.of_nat (seq 1 (z - 1)).
Proof.
  unfold range. replace (Z.to_nat (Z.of_nat z - 1)) with (z - 1)%nat by lia.
  rewrite <- (fmap_S_seq 0). rewrite <- list_fmap_compose.
  apply map_ext. intros k. simpl. lia.
Qed.

Lemma temperature_ok self ion0 :
  _ion_list self !! 0%nat = Some ion0 ->
  IonCollection.temperature self = (Ok (temperature ion0), self).
Proof.
  intros H. unfold IonCollection.temperature.
  assert (G : IonCollection.__getitem__ 0 self = (Ok ion0, self))
    by exact (getitem_nat 0 _ _ H).
  by step G.
Qed.

Lemma atomic_number_ok self ion0 :
  _ion_list self !! 0%nat = Some ion0 ->
  self_atomic_number self = (Ok (atomic_number ion0), self).
Proof.
  intros H. unfold self_atomic_number.
  assert (G : __getitem__ (KInt 0) self = (Ok ion0, self))
    by exact (getitem_nat 0 _ _ H).
  by step G.
Qed.

(** The builder returns, leaves the instance alone, and fills the array as
    the specification words it. *)
Lemma rate_matrix_spec self z t :
  well_formed self z t = true ->
  exists a, _rate_matrix self = (Ok a, self) /\ shaped a t (S z) (S z)
    /\ forall k r c, (k < t)%nat -> (r <= z)%nat -> (c <= z)%nat ->
         Np.get a k r c = spec_entry self k r c.
Proof.
  intros Hwf.
  destruct (well_formed_inv _ _ _ Hwf) as (Hz & Hlen & (ion0 & H0 & Hnum & Htemp) & Hions).
  destruct (Hions 0%nat) as (ion0' & H0' & HI0 & HR0); [lia|].
  rewrite H0 in H0'. injection H0' as <-.
  destruct (Hions 1%nat) as (ion1 & H1 & _ & HR1); [lia|].
  destruct (Hions z) as (ionz & Hionz & HIz & HRz); [lia|].
  destruct (Hions (z - 1)%nat) as (iony & Hiony & HIy & _); [lia|].
  destruct (zeros_shaped t (S z) (S z)) as (a0 & E0 & S0 & G0).
  destruct (interior_loop_spec self z t (seq 1 (z - 1)) Hwf) with (a := a0)
    as (a1 & E1 & S1 & G1); [|done|].
  { apply Forall_forall. intros i Hi%elem_of_seq. lia. }
  assert (G1' : forall k r c, Np.get a1 k r c
            = if decide ((1 <= r < z)%nat /\ (c = r \/ r = S c \/ c = S r))
              then spec_entry self k r c else Np.get a0 k r c).
  { intros k r c. rewrite G1. apply decide_ext. rewrite elem_of_seq. lia. }
  clear G1.
  destruct (setitem_spec a1 t (S z) (S z) 0 0 0%nat 0%nat
              (Np.neg (zip_with Qplus (ionization_rate ion0) (recombination_rate ion0))))
    as (a2 & E2 & S2 & G2);
    [done|by apply (axis_index_nat (S z) 0); lia|by apply (axis_index_nat (S z) 0); lia
    |by apply balance_length|].
  destruct (setitem_spec a2 t (S z) (S z) 0 1 0%nat 1%nat (recombination_rate ion1))
    as (a3 & E3 & S3 & G3);
    [done|by apply (axis_index_nat (S z) 0); lia|by apply (axis_index_nat (S z) 1); lia
    |done|].
  assert (Hm1 : Np.axis_index (S z) (- Z.of_nat 1) = Ok z).
  { rewrite axis_index_neg by lia. f_equal. lia. }
  assert (Hm2 : Np.axis_index (S z) (- Z.of_nat 2) = Ok (z - 1)%nat).
  { rewrite axis_index_neg by lia. f_equal. }
  destruct (setitem_spec a3 t (S z) (S z) (-1) (-1) z z
              (Np.neg (zip_with Qplus (ionization_rate ionz) (recombination_rate ionz))))
    as (a4 & E4 & S4 & G4); [done|exact Hm1|exact Hm1|by apply balance_length|].
  destruct (setitem_spec a4 t (S z) (S z) (-1) (-2) z (z - 1)%nat (ionization_rate iony))
    as (a5 & E5 & S5 & G5); [done|exact Hm1|exact Hm2|done|].
  assert (Gi0 : __getitem__ (KInt 0) self = (Ok ion0, self))
    by exact (getitem_nat 0 _ _ H0).
  assert (Gi1 : __getitem__ (KInt 1) self = (Ok ion1, self))
    by exact (getitem_nat 1 _ _ H1).
  assert (Gm1 : __getitem__ (KInt (-1)) self = (Ok ionz, self)).
  { apply (getitem_neg 1); [lia|]. rewrite Hlen.
    by replace (S z - 1)%nat with z by lia. }
  assert (Gm2 : __getitem__ (KInt (-2)) self = (Ok iony, self)).
  { apply (getitem_neg 2); [lia|]. rewrite Hlen.
    by replace (S z - 2)%nat with (z - 1)%nat by lia. }
  exists a5. split; [|split; [done|]].
  - unfold _rate_matrix.
    step (temperature_ok _ _ H0).
    step (atomic_number_ok _ _ H0). step (atomic_number_ok _ _ H0).
    rewrite Hnum, Htemp. replace (Z.of_nat z + 1) with (Z.of_nat (S z)) by lia.
    rewrite E0. unfold lift at 1. unfold bind at 1. cbv beta iota.
    step Gi0. step (atomic_number_ok _ _ H0).
    rewrite Hnum, range_from_one. step E1.
    step Gi0. step Gi0. rewrite add_same_length by congruence.
    unfold lift at 1. unfold bind at 1. cbv beta iota.
    rewrite E2. unfold lift at 1. unfold bind at 1. cbv beta iota.
    step Gi1. rewrite E3. unfold lift at 1. unfold bind at 1. cbv beta iota.
    step Gm1. step Gm1. rewrite add_same_length by congruence.
    unfold lift at 1. unfold bind at 1. cbv beta iota.
    rewrite E4. unfold lift at 1. unfold bind at 1. cbv beta iota.
    step Gm2. rewrite E5. reflexivity.
  - intros k r c Hk Hr Hc.
    rewrite G5, G4, G3, G2, G1', !balance_lookup, (G0 k r c) by lia.
    unfold spec_entry, ionization_rate_at, recombination_rate_at.
    repeat case_decide; destruct_and?; subst;
      rewrite ?H0, ?H1, ?Hionz, ?Hiony; try done.
    all: try (exfalso; lia).
Qed.

(** ** Column sums *)

Lemma sum_map_ext (f g : nat -> Q) l :
  (forall i, i ∈ l -> (f i == g i)%Q) -> (Np.sum (map f l) == Np.sum (map g l))%Q.
Proof.
  induction l as [|x l IH]; intros H; simpl; [reflexivity|].
  rewrite (H x) by (apply elem_of_cons; by left).
  rewrite IH; [reflexivity|]. intros i Hi. apply H. apply elem_of_cons. by right.
Qed.

Lemma sum_map_add (f g : nat -> Q) l :
  (Np.sum (map (fun i => f i + g i) l) == Np.sum (map f l) + Np.sum (map g l))%Q.
Proof.
  induction l as [|x l IH]; simpl; [reflexivity|]. rewrite IH. ring.
Qed.

Lemma sum_indicator_out (p : nat) (x : Q) l :
  p ∉ l -> (Np.sum (map (fun i => if decide (i = p) then x else 0) l) == 0)%Q.
Proof.
  induction l as [|y l IH]; intros Hp; simpl; [reflexivity|].
  apply not_elem_of_cons in Hp as [Hne Hp].
  rewrite decide_False by done. rewrite IH by done. ring.
Qed.

Lemma sum_indicator (p : nat) (x : Q) s n :
  (Np.sum (map (fun i => if decide (i = p) then x else 0) (seq s n))
   == if decide (s <= p < s + n)%nat then x else 0)%Q.
Proof.
  revert s. induction n as [|n IH]; intros s; simpl.
  - rewrite decide_False by lia. reflexivity.
  - rewrite IH. repeat case_decide; try lia; ring.
Qed.

(** Column [j] of the rate matrix holds the three terms of stage [j]. *)
Lemma column_sum_spec self z t a k j :
  well_formed self z t = true -> fst (_rate_matrix self) = Ok a ->
  (k < t)%nat -> (j <= z)%nat ->
  (column_sum a k j (S z)
   == - (I_ self j k + R_ self j k)
      + (if decide (j < z)%nat then I_ self j k else 0)
      + (if decide (1 <= j)%nat then R_ self j k else 0))%Q.
Proof.
  intros Hwf Ha Hk Hj.
  destruct (rate_matrix_spec _ _ _ Hwf) as (a' & E & _ & G).
  rewrite E in Ha. injection Ha as ->.
  destruct (well_formed_inv _ _ _ Hwf) as (Hz & Hlen & _ & Hions).
  unfold column_sum.
  rewrite (sum_map_ext _
    (fun i => (if decide (i = j) then - (I_ self j k + R_ self j k) else 0)
              + ((if decide (i = S j) then I_ self j k else 0)
                 + (if decide (i = (j - 1)%nat) then
                      (if decide (1 <= j)%nat then R_ self j k else 0) else 0)))%Q).
  - rewrite !sum_map_add, !sum_indicator.
    repeat case_decide; try lia; ring.
  - intros i Hi%elem_of_seq. rewrite G by lia.
    destruct (Hions j Hj) as (ion & Hion & HI & HR).
    destruct (lookup_lt_is_Some_2 (ionization_rate ion) k) as [x Hx]; [lia|].
    destruct (lookup_lt_is_Some_2 (recombination_rate ion) k) as [y Hy]; [lia|].
    unfold spec_entry, I_, R_, ionization_rate_at, recombination_rate_at.
    rewrite Hion, Hx, Hy.
    repeat case_decide; subst; rewrite ?Hion, ?Hx, ?Hy; simpl; try lia; ring.
Qed.

(** ** The solver *)

Lemma py_index_last {A} (l : list A) v : last l = Some v -> py_index l (-1) = Ok v.
Proof.
  intros H. rewrite last_lookup in H.
  assert (Hlen : (1 <= length l)%nat).
  { destruct l; [done|simpl; lia]. }
  apply (py_index_neg l 1); [lia|].
  by replace (length l - 1)%nat with (pred (length l)) by lia.
Qed.

Lemma rmap_ok {A B} (f : A -> result B) (g : A -> B) l :
  Forall (fun x => f x = Ok (g x)) l -> rmap f l = Ok (map g l).
Proof.
  induction 1 as [|x l Hx _ IH]; simpl; [done|]. by rewrite Hx, IH.
Qed.

Lemma sum_nonneg l : Forall (fun x => 0 <= x)%Q l -> (0 <= Np.sum l)%Q.
Proof.
  induction 1 as [|x l Hx _ IH]; simpl; [apply Qle_refl|].
  replace 0%Q with (0 + 0)%Q by reflexivity. by apply Qplus_le_compat.
Qed.

Lemma abs_all_nonneg v : Forall (fun x => 0 <= x)%Q (map Qabs v).
Proof. apply Forall_forall. intros x (y & -> & _)%list_elem_of_fmap. apply Qabs_nonneg. Qed.

Lemma sum_abs_pos v : Exists (fun x => ~ (x == 0)%Q) v -> (0 < Np.sum (map Qabs v))%Q.
Proof.
  induction 1 as [x l Hx|x l _ IH]; simpl.
  - assert (H1 : (0 < Qabs x)%Q).
    { destruct (Qle_lt_or_eq _ _ (Qabs_nonneg x)) as [H|H]; [done|].
      exfalso. apply Hx. symmetry in H. revert H.
      apply Qabs_case; intros _ H; [done|].
      rewrite <- (Qopp_involutive x), H. reflexivity. }
    pose proof (sum_nonneg _ (abs_all_nonneg l)) as H2.
    replace 0%Q with (0 + 0)%Q by reflexivity.
    apply Qplus_lt_le_compat; done.
  - rewrite Qplus_comm. replace 0%Q with (0 + 0)%Q by reflexivity.
    apply Qplus_lt_le_compat; [done|apply Qabs_nonneg].
Qed.

Lemma sum_scale (s : Q) l : (Np.sum (map (fun x => x / s) l) == Np.sum l / s)%Q.
Proof.
  induction l as [|x l IH]; simpl.
  - unfold Qdiv. ring.
  - rewrite IH. unfold Qdiv. ring.
Qed.

Lemma normalized_abs_alt v :
  normalized_abs v = map (fun x => x / Np.sum (map Qabs v))%Q (map Qabs v).
Proof. unfold normalized_abs. by rewrite map_map. Qed.

(** A vector that is not zero becomes a distribution. *)
Lemma normalized_abs_distribution v :
  Exists (fun x => ~ (x == 0)%Q) v ->
  length (normalized_abs v) = length v
  /\ Forall (fun x => 0 <= x)%Q (normalized_abs v)
  /\ (Np.sum (normalized_abs v) == 1)%Q.
Proof.
  intros Hv. pose proof (sum_abs_pos v Hv) as Hpos.
  split; [|split].
  - unfold normalized_abs. by rewrite length_map.
  - apply Forall_forall. intros x (y & -> & _)%list_elem_of_fmap.
    apply Qle_shift_div_l; [done|]. rewrite Qmult_0_l. apply Qabs_nonneg.
  - rewrite normalized_abs_alt, sum_scale.
    unfold Qdiv. apply Qmult_inv_r. intros H. rewrite H in Hpos.
    by apply Qlt_irrefl in Hpos.
Qed.

Lemma shaped_slices a t n m k slice :
  shaped a t n m -> Np.data a !! k = Some slice ->
  length slice = n /\ Forall (fun row => length row = m) slice.
Proof.
  intros (_ & _ & _ & _ & Hall) Hk. rewrite Forall_forall in Hall.
  apply Hall. by eapply list_elem_of_lookup_2.
Qed.

(** Solving for a given array: the post-processing of the decomposition. *)
Lemma solve_spec svd_vh kwargs a self t n :
  default None (kwargs !! "rate_matrix") = Some a ->
  shaped a t n n -> svd_contract svd_vh n ->
  equilibrium_ionization svd_vh kwargs self
  = (Ok (map (fun slice => normalized_abs (default [] (last (svd_vh slice)))) (Np.data a)),
     self).
Proof.
  intros Hkw Ha Hsvd. unfold equilibrium_ionization. rewrite Hkw.
  unfold ret at 1. unfold bind at 1. cbv beta iota.
  rewrite (rmap_ok _ (fun vh => default [] (last vh))).
  - unfold lift, bind, ret. cbv beta iota. f_equal. f_equal.
    rewrite zip_with_fmap_r, zip_with_diag, !map_map.
    apply map_ext. intros slice. by rewrite normalized_abs_alt.
  - apply Forall_forall. intros vh (slice & -> & Hin)%list_elem_of_fmap.
    apply list_elem_of_lookup in Hin as [k Hk].
    destruct (shaped_slices _ _ _ _ _ _ Ha Hk) as [Hr Hc].
    destruct (Hsvd slice Hr Hc) as (v & Hlast & _).
    rewrite Hlast. simpl. by apply py_index_last.
Qed.

Lemma solve_default_spec svd_vh a self t n :
  _rate_matrix self = (Ok a, self) ->
  shaped a t n n -> svd_contract svd_vh n ->
  equilibrium_ionization svd_vh ∅ self
  = (Ok (map (fun slice => normalized_abs (default [] (last (svd_vh slice)))) (Np.data a)),
     self).
Proof.
  intros E Ha Hsvd.
  rewrite <- (solve_spec svd_vh {["rate_matrix" := Some a]} a self t n); [|done..].
  unfold equilibrium_ionization. rewrite lookup_empty, lookup_singleton_eq. simpl.
  rewrite (bind_ok _ _ _ _ _ E). reflexivity.
Qed.

(** ** Construction *)

Lemma fold_left_snoc {A B} (f : A -> B) l acc :
  fold_left (fun acc x => (acc ++ [f x])%list) l acc = (acc ++ map f l)%list.
Proof.
  revert acc. induction l as [|x l IH]; intros acc; simpl.
  - by rewrite app_nil_r.
  - rewrite IH. by rewrite <- app_assoc.
Qed.

Lemma range_lookup a b (i : nat) :
  (Z.of_nat i < b - a) -> range a b !! i = Some (a + Z.of_nat i).
Proof.
  intros H. unfold range. rewrite list_lookup_fmap, lookup_seq_lt by lia. done.
Qed.

Lemma range_length a b : length (range a b) = Z.to_nat (b - a).
Proof. unfold range. by rewrite length_map, length_seq. Qed.

Lemma spec_entry_is_Some self z t k i j :
  well_formed self z t = true -> (k < t)%nat -> (i <= z)%nat -> (j <= z)%nat ->
  is_Some (spec_entry self k i j).
Proof.
  intros Hwf Hk Hi Hj.
  destruct (well_formed_inv _ _ _ Hwf) as (_ & _ & _ & Hions).
  destruct (Hions i Hi) as (ion & Hion & HI & HR).
  destruct (Hions j Hj) as (ion' & Hion' & HI' & HR').
  destruct (lookup_lt_is_Some_2 (ionization_rate ion) k) as [x Hx]; [lia|].
  destruct (lookup_lt_is_Some_2 (recombination_rate ion) k) as [y Hy]; [lia|].
  destruct (lookup_lt_is_Some_2 (ionization_rate ion') k) as [x' Hx']; [lia|].
  destruct (lookup_lt_is_Some_2 (recombination_rate ion') k) as [y' Hy']; [lia|].
  unfold spec_entry, ionization_rate_at, recombination_rate_at.
  repeat case_decide; subst; rewrite ?Hion, ?Hion', ?Hx, ?Hy, ?Hx', ?Hy'; eauto.
Qed.

Lemma ones_vh_contract n : (1 <= n)%nat -> svd_contract Demo.ones_vh n.
Proof.
  intros Hn m Hlen Hrows. unfold Demo.ones_vh.
  destruct (last m) as [row|] eqn:E.
  - exists (map (fun _ => 1%Q) row).
    assert (Hrow : length row = n).
    { rewrite Forall_forall in Hrows. apply Hrows.
      rewrite last_lookup in E. by eapply list_elem_of_lookup_2. }
    split; [|split].
    + change (last ((fun row0 => map (fun _ => 1%Q) row0) <$> m)
              = Some (map (fun _ => 1%Q) row)).
      by rewrite fmap_last, E.
    + by rewrite length_map.
    + destruct row as [|x row]; [simpl in Hrow; lia|]. simpl. by left.
  - apply last_None in E. rewrite E in Hlen. simpl in Hlen. lia.
Qed.

(** ** The claims *)

(** C1: for an element of atomic number [z] on a grid of [t] temperatures
    the builder returns a [t x (z+1) x (z+1)] array [M] such that, for every
    sample [k], [M[k, i, i] = -(ionization_rate_i(k) + recombination_rate_i(k))]
    on every row including the boundary rows [0] and [z],
    [M[k, i, i-1] = ionization_rate_{i-1}(k)],
    [M[k, i, i+1] = recombination_rate_{i+1}(k)], and every other entry is
    zero.  Elements have atomic number at least 1. *)
Theorem rate_matrix_tridiagonal (self : Element) (z t : nat) :
  well_formed self z t = true ->
  exists a, _rate_matrix self = (Ok a, self)
    /\ (Np.dim0 a, Np.dim1 a, Np.dim2 a) = (t, S z, S z)
    /\ length (Np.data a) = t
    /\ forall k i j, (k < t)%nat -> (i <= z)%nat -> (j <= z)%nat ->
         is_Some (Np.get a k i j) /\ Np.get a k i j = spec_entry self k i j.
Proof.
  intros Hwf.
  destruct (rate_matrix_spec self z t Hwf) as (a & E & Ha & G).
  exists a. split; [done|].
  destruct Ha as (-> & -> & -> & Hlen & _).
  split; [done|]. split; [done|].
  intros k i j Hk Hi Hj. rewrite (G k i j Hk Hi Hj).
  split; [|done]. by eapply spec_entry_is_Some.
Qed.

Lemma rate_matrix_tridiagonal_lithium :
  exists a, _rate_matrix Demo.lithium = (Ok a, Demo.lithium)
    /\ (Np.dim0 a, Np.dim1 a, Np.dim2 a) = (2, 4, 4)%nat
    /\ length (Np.data a) = 2%nat
    /\ forall k i j, (k < 2)%nat -> (i <= 3)%nat -> (j <= 3)%nat ->
         is_Some (Np.get a k i j) /\ Np.get a k i j = spec_entry Demo.lithium k i j.
Proof. apply (rate_matrix_tridiagonal Demo.lithium 3 2). reflexivity. Defined.

(** C2: for an element of atomic number [z] on a grid of [t] temperatures,
    [equilibrium_ionization] returns a [t x (z+1)] array whose entries are
    non-negative and whose rows sum to 1; row [k] is the absolute value of
    the last right singular vector of slice [k], divided by its sum.  The
    decomposition is a parameter and the arithmetic is exact. *)
Theorem equilibrium_ionization_distribution
    (svd_vh : list (list Q) -> list (list Q)) (self : Element) (z t : nat) :
  well_formed self z t = true -> svd_contract svd_vh (S z) ->
  exists a fractions,
    _rate_matrix self = (Ok a, self)
    /\ equilibrium_ionization svd_vh ∅ self = (Ok fractions, self)
    /\ length fractions = t
    /\ (forall k row, fractions !! k = Some row ->
          length row = S z /\ Forall (fun x => 0 <= x)%Q row /\ (Np.sum row == 1)%Q)
    /\ (forall k slice, Np.data a !! k = Some slice ->
          exists v, last (svd_vh slice) = Some v /\ fractions !! k = Some (normalized_abs v)).
Proof.
  intros Hwf Hsvd.
  destruct (rate_matrix_spec self z t Hwf) as (a & E & Ha & _).
  exists a. eexists. split; [done|].
  split; [by eapply solve_default_spec|].
  split; [|split].
  - rewrite length_map. by destruct Ha as (_ & _ & _ & -> & _).
  - intros k row Hrow. rewrite list_lookup_fmap in Hrow.
    destruct (Np.data a !! k) as [slice|] eqn:Hk; [|done].
    simpl in Hrow. injection Hrow as <-.
    destruct (shaped_slices _ _ _ _ _ _ Ha Hk) as [Hr Hc].
    destruct (Hsvd slice Hr Hc) as (v & -> & Hlen & Hnz). simpl.
    destruct (normalized_abs_distribution v Hnz) as (H1 & H2 & H3).
    split; [congruence|done].
  - intros k slice Hk.
    destruct (shaped_slices _ _ _ _ _ _ Ha Hk) as [Hr Hc].
    destruct (Hsvd slice Hr Hc) as (v & Hlast & _).
    exists v. split; [done|]. rewrite list_lookup_fmap, Hk. simpl. by rewrite Hlast.
Qed.

Lemma equilibrium_ionization_distribution_hydrogen :
  exists a fractions,
    _rate_matrix Demo.hydrogen = (Ok a, Demo.hydrogen)
    /\ equilibrium_ionization Demo.ones_vh ∅ Demo.hydrogen = (Ok fractions, Demo.hydrogen)
    /\ length fractions = 2%nat
    /\ (forall k row, fractions !! k = Some row ->
          length row = 2%nat /\ Forall (fun x => 0 <= x)%Q row /\ (Np.sum row == 1)%Q)
    /\ (forall k slice, Np.data a !! k = Some slice ->
          exists v, last (Demo.ones_vh slice) = Some v
                    /\ fractions !! k = Some (normalized_abs v)).
Proof.
  apply (equilibrium_ionization_distribution Demo.ones_vh Demo.hydrogen 1 2).
  - reflexivity.
  - apply ones_vh_contract. lia.
Defined.

(** C3, as stated, fails: every column of every slice would sum to zero
    whatever the rates.  For hydrogen with the rates of [Demo], column 0 of
    the first slice sums to [-21], the opposite of the recombination rate of
    the neutral stage. *)
Lemma column_sum_hydrogen_nonzero :
  well_formed Demo.hydrogen 1 2 = true
  /\ _rate_matrix Demo.hydrogen = (Ok Demo.hydrogen_matrix, Demo.hydrogen)
  /\ (column_sum Demo.hydrogen_matrix 0 0 2 == - (21 # 1))%Q
  /\ ~ (column_sum Demo.hydrogen_matrix 0 0 2 == 0)%Q.
Proof.
  split; [reflexivity|]. split; [reflexivity|]. split; [reflexivity|].
  intros H. vm_compute in H. discriminate H.
Qed.

(** C3, amended: in every slice of the builder's array the interior columns
    [0 < j < z] sum to zero, column [0] sums to [-recombination_rate_0] and
    column [z] to [-ionization_rate_z]; so every column sums to zero when
    the neutral stage does not recombine and the bare stage does not
    ionize.  Arithmetic is exact. *)
Theorem column_sums (self : Element) (z t : nat) (a : Np.ndarray3) (k j : nat) :
  well_formed self z t = true -> fst (_rate_matrix self) = Ok a ->
  (k < t)%nat -> (j <= z)%nat ->
  (column_sum a k j (S z)
   == if decide (j = 0%nat) then - R_ self 0 k
      else if decide (j = z) then - I_ self z k else 0)%Q
  /\ ((R_ self 0 k == 0)%Q -> (I_ self z k == 0)%Q -> (column_sum a k j (S z) == 0)%Q).
Proof.
  intros Hwf Ha Hk Hj.
  pose proof (column_sum_spec self z t a k j Hwf Ha Hk Hj) as H.
  destruct (well_formed_inv _ _ _ Hwf) as (Hz & _).
  assert (E : (column_sum a k j (S z)
               == if decide (j = 0%nat) then - R_ self 0 k
                  else if decide (j = z) then - I_ self z k else 0)%Q).
  { rewrite H. repeat case_decide; subst; try lia; ring. }
  split; [exact E|].
  intros HR HI. rewrite E. repeat case_decide; rewrite ?HR, ?HI; reflexivity.
Qed.

Lemma column_sums_lithium :
  (column_sum (Demo.get_or_empty_matrix (fst (_rate_matrix Demo.lithium))) 1 2 4
   == if decide (2 = 0)%nat then - R_ Demo.lithium 0 1
      else if decide (2 = 3)%nat then - I_ Demo.lithium 3 1 else 0)%Q
  /\ ((R_ Demo.lithium 0 1 == 0)%Q -> (I_ Demo.lithium 3 1 == 0)%Q ->
      (column_sum (Demo.get_or_empty_matrix (fst (_rate_matrix Demo.lithium))) 1 2 4 == 0)%Q).
Proof.
  apply (column_sums Demo.lithium 3 2); [reflexivity|reflexivity|lia|lia].
Defined.

(** C4, as stated, fails: with atomic number 0 there is a single stage, the
    array would be 1 x 1, and the assignment of the off-diagonal entry of
    row 0 reads [self[1]], which raises [IndexError]. *)
Lemma rate_matrix_single_stage_raises :
  self_atomic_number Demo.single_stage = (Ok 0, Demo.single_stage)
  /\ _rate_matrix Demo.single_stage = (Raise IndexError, Demo.single_stage).
Proof. split; reflexivity. Qed.

(** C4, amended: for atomic number 1 (hydrogen, two stages) the loop over
    [range(1, 1)] has nothing to run, the builder does not raise, and the
    boundary assignments alone give each 2 x 2 slice:
    [[-(I0 + R0), R1], [I0, -(I1 + R1)]]. *)
Theorem rate_matrix_two_stage (self : Element) (t : nat) :
  well_formed self 1 t = true ->
  self_atomic_number self = (Ok 1, self)
  /\ range 1 1 = []
  /\ exists a, _rate_matrix self = (Ok a, self)
       /\ (Np.dim0 a, Np.dim1 a, Np.dim2 a) = (t, 2, 2)%nat
       /\ length (Np.data a) = t
       /\ forall k, (k < t)%nat ->
            Np.data a !! k
            = Some [[(- (I_ self 0 k + R_ self 0 k))%Q; R_ self 1 k];
                    [I_ self 0 k; (- (I_ self 1 k + R_ self 1 k))%Q]].
Proof.
  intros Hwf.
  destruct (well_formed_inv _ _ _ Hwf) as (_ & _ & (ion0 & H0 & Hnum & _) & Hions).
  split; [by rewrite (atomic_number_ok _ _ H0), Hnum|]. split; [reflexivity|].
  destruct (rate_matrix_spec self 1 t Hwf) as (a & E & Ha & G).
  exists a. split; [done|].
  pose proof Ha as (-> & -> & -> & Hlen & _).
  split; [done|]. split; [done|]. intros k Hk.
  destruct (lookup_lt_is_Some_2 (Np.data a) k) as [slice Hs]; [lia|].
  destruct (shaped_slices _ _ _ _ _ _ Ha Hs) as [Hr Hc].
  pose proof (G k 0%nat 0%nat Hk) as G00. pose proof (G k 0%nat 1%nat Hk) as G01.
  pose proof (G k 1%nat 0%nat Hk) as G10. pose proof (G k 1%nat 1%nat Hk) as G11.
  unfold Np.get in G00, G01, G10, G11. rewrite Hs in G00, G01, G10, G11.
  destruct slice as [|r0 [|r1 [|? ?]]]; try discriminate Hr.
  apply Forall_cons in Hc as [Hc0 Hc]. apply Forall_cons in Hc as [Hc1 _].
  destruct r0 as [|x00 [|x01 [|? ?]]]; try discriminate Hc0.
  destruct r1 as [|x10 [|x11 [|? ?]]]; try discriminate Hc1.
  simpl in G00, G01, G10, G11.
  destruct (Hions 0%nat) as (i0 & Hi0 & HI0 & HR0); [lia|].
  destruct (Hions 1%nat) as (i1 & Hi1 & HI1 & HR1); [lia|].
  destruct (lookup_lt_is_Some_2 (ionization_rate i0) k) as [a0 Ha0]; [lia|].
  destruct (lookup_lt_is_Some_2 (recombination_rate i0) k) as [b0 Hb0]; [lia|].
  destruct (lookup_lt_is_Some_2 (ionization_rate i1) k) as [a1 Ha1]; [lia|].
  destruct (lookup_lt_is_Some_2 (recombination_rate i1) k) as [b1 Hb1]; [lia|].
  unfold I_, R_.
  unfold spec_entry, ionization_rate_at, recombination_rate_at in *.
  rewrite Hi0, Hi1, ?Ha0, ?Hb0, ?Ha1, ?Hb1 in *. simpl in *.
  specialize (G00 ltac:(lia) ltac:(lia)). specialize (G01 ltac:(lia) ltac:(lia)).
  specialize (G10 ltac:(lia) ltac:(lia)). specialize (G11 ltac:(lia) ltac:(lia)).
  congruence.
Qed.

Lemma rate_matrix_two_stage_hydrogen :
  self_atomic_number Demo.hydrogen = (Ok 1, Demo.hydrogen)
  /\ range 1 1 = []
  /\ exists a, _rate_matrix Demo.hydrogen = (Ok a, Demo.hydrogen)
       /\ (Np.dim0 a, Np.dim1 a, Np.dim2 a) = (2, 2, 2)%nat
       /\ length (Np.data a) = 2%nat
       /\ forall k, (k < 2)%nat ->
            Np.data a !! k
            = Some [[(- (I_ Demo.hydrogen 0 k + R_ Demo.hydrogen 0 k))%Q; R_ Demo.hydrogen 1 k];
                    [I_ Demo.hydrogen 0 k; (- (I_ Demo.hydrogen 1 k + R_ Demo.hydrogen 1 k))%Q]].
Proof. apply (rate_matrix_two_stage Demo.hydrogen 2). reflexivity. Defined.

(** C5: integer and string keys resolve to the same position: for every
    integer [i], [element[i]] equals [element["<symbol> <i+1>"]] (stage,
    1-based) and [element["<symbol> <i>+"]] (charge, 0-based). *)
Theorem getitem_int_and_str_agree (self : Element) (symbol : string) (i : Z) :
  PyStr.is_token symbol = true ->
  __getitem__ (KStr (symbol +:+ " " +:+ PyStr.str (i + 1))) self = __getitem__ (KInt i) self
  /\ __getitem__ (KStr (symbol +:+ " " +:+ PyStr.str i +:+ "+")) self
     = __getitem__ (KInt i) self.
Proof.
  intros Hsym. split.
  - rewrite (getitem_position symbol (PyStr.str (i + 1)) i);
      [done|done|apply str_is_token|].
    rewrite ion_position_stage. f_equal. lia.
  - apply getitem_position; [done|apply str_plus_is_token|apply ion_position_charge].
Qed.

Lemma getitem_int_and_str_agree_iron :
  __getitem__ (KStr "Fe 1") Demo.iron = __getitem__ (KInt 0) Demo.iron
  /\ __getitem__ (KStr "Fe 0+") Demo.iron = __getitem__ (KInt 0) Demo.iron.
Proof. exact (getitem_int_and_str_agree Demo.iron "Fe" 0 eq_refl). Defined.

(** C6: a string key without whitespace, such as ["Fe"], has no
    element/stage separator: the lookup raises [ValueError], the format
    error of the unpacking, and returns nothing. *)
Theorem getitem_no_separator (self : Element) (value : string) :
  PyStr.all_chars (fun c => negb (PyStr.isspace c)) value = true ->
  __getitem__ (KStr value) self = (Raise ValueError, self).
Proof.
  intros H. unfold __getitem__, key_position.
  destruct (split_no_space value H) as [-> | ->]; reflexivity.
Qed.

Lemma getitem_no_separator_Fe :
  __getitem__ (KStr "Fe") Demo.iron = (Raise ValueError, Demo.iron).
Proof. exact (getitem_no_separator Demo.iron "Fe" eq_refl). Defined.

(** C7: handing [equilibrium_ionization] the array the builder returns
    gives the same result as calling it without arguments. *)
Theorem override_equivalence
    (svd_vh : list (list Q) -> list (list Q)) (self : Element) (a : Np.ndarray3) :
  fst (_rate_matrix self) = Ok a ->
  equilibrium_ionization svd_vh {["rate_matrix" := Some a]} self
  = equilibrium_ionization svd_vh ∅ self.
Proof.
  intros H. pose proof (reads_only_rate_matrix self) as Hs.
  destruct (_rate_matrix self) as [r self'] eqn:E. simpl in *. subst.
  unfold equilibrium_ionization. rewrite lookup_empty, lookup_singleton_eq. simpl.
  rewrite (bind_ok _ _ _ _ _ E). reflexivity.
Qed.

Lemma override_equivalence_hydrogen :
  equilibrium_ionization Demo.ones_vh {["rate_matrix" := Some Demo.hydrogen_matrix]}
    Demo.hydrogen
  = equilibrium_ionization Demo.ones_vh ∅ Demo.hydrogen.
Proof.
  exact (override_equivalence Demo.ones_vh Demo.hydrogen Demo.hydrogen_matrix eq_refl).
Defined.

(** C8: two calls of [equilibrium_ionization()] in a row on one instance
    return the same outcome, and the instance is left as it was: the
    methods only read it. *)
Theorem equilibrium_ionization_idempotent
    (svd_vh : list (list Q) -> list (list Q)) (self : Element) :
  let first := equilibrium_ionization svd_vh ∅ self in
  let second := equilibrium_ionization svd_vh ∅ (snd first) in
  fst first = fst second /\ snd first = self /\ snd second = self.
Proof.
  intros first second. subst first second.
  rewrite !reads_only_equilibrium_ionization. done.
Qed.

(** C9: construction resolves the identifier, a string after
    [capitalize()]; if the resolver raises, so does the constructor and no
    element exists; if it returns [z] (not negative), the element holds
    exactly [z + 1] ions, the one at position [i] built from the label
    ["<z> <i+1>"], stage 1 first and stage [z + 1] last. *)
Theorem init_resolves_then_builds
    (ion_kwargs : Type) (plasmapy_atomic_number : element_id -> result Z)
    (Ion_new : string -> list Q -> ion_kwargs -> Ion)
    (element_name : element_id) (temperature : list Q) (kwargs : ion_kwargs) :
  let resolved :=
    plasmapy_atomic_number
      match element_name with
      | NameStr s => NameStr (PyStr.capitalize s)
      | NameInt n => NameInt n
      end in
  let built := __init__ ion_kwargs plasmapy_atomic_number Ion_new element_name temperature kwargs in
  (forall e, resolved = Raise e -> built = Raise e)
  /\ (forall z, resolved = Ok z -> 0 <= z ->
        exists self, built = Ok self
          /\ Z.of_nat (length (_ion_list self)) = z + 1
          /\ forall i : nat, (Z.of_nat i <= z) ->
               _ion_list self !! i
               = Some (Ion_new (PyStr.str z +:+ " " +:+ PyStr.str (Z.of_nat i + 1))
                               temperature kwargs)).
Proof.
  intros resolved built. subst resolved built. unfold __init__. split.
  - intros e ->. reflexivity.
  - intros z -> Hz. simpl. eexists. split; [reflexivity|].
    unfold IonCollection_init. cbn [_ion_list].
    rewrite fold_left_snoc, app_nil_l. split.
    + rewrite length_map, range_length. lia.
    + intros i Hi. rewrite list_lookup_fmap, range_lookup by lia. simpl.
      by rewrite Z.add_0_l.
Qed.

Lemma init_resolves_then_builds_demo :
  Demo.element "xx" [1%Q] = Raise InvalidParticleError
  /\ exists self, Demo.element "fe" [1%Q] = Ok self
       /\ Z.of_nat (length (_ion_list self)) = 27
       /\ forall i : nat, (Z.of_nat i <= 26) ->
            _ion_list self !! i
            = Some (Demo.ion_of ("26" +:+ " " +:+ PyStr.str (Z.of_nat i + 1)) [1%Q] tt).
Proof.
  split.
  - exact (proj1 (init_resolves_then_builds unit Demo.atomic_number_of Demo.ion_of
                    (NameStr "xx") [1%Q] tt) InvalidParticleError eq_refl).
  - apply (proj2 (init_resolves_then_builds unit Demo.atomic_number_of Demo.ion_of
                    (NameStr "fe") [1%Q] tt) 26); [reflexivity|lia].
Defined.

(** C10: the first token of a string key is never compared with the
    element's symbol: for any two-token key whose second token parses to a
    position, the lookup is the lookup of that position, so ["H 1"] on iron
    returns neutral iron. *)
Theorem getitem_ignores_element_token (self : Element) (word ion : string) (n : Z) :
  PyStr.is_token word = true -> PyStr.is_token ion = true -> ion_position ion = Ok n ->
  __getitem__ (KStr (word +:+ " " +:+ ion)) self = __getitem__ (KInt n) self.
Proof.
  intros Hword Hion Hn. unfold __getitem__ at 1. unfold key_position.
  rewrite (split_two_tokens word ion Hword Hion).
  unfold bind, lift. by rewrite Hn.
Qed.

Lemma getitem_ignores_element_token_iron :
  __getitem__ (KStr "H 1") Demo.iron = __getitem__ (KInt 0) Demo.iron.
Proof. exact (getitem_ignores_element_token Demo.iron "H" "1" 0 eq_refl eq_refl eq_refl). Defined.

Example iron_H_1_is_neutral_iron :
  rfmap ion_name (fst (__getitem__ (KStr "H 1") Demo.iron)) = Ok "26 1"
  /\ rfmap ion_name (fst (__getitem__ (KStr "Fe 14+") Demo.iron)) = Ok "26 15"
  /\ rfmap ion_name (fst (__getitem__ (KStr "Fe 0") Demo.iron)) = Ok "26 27"
  /\ fst (__getitem__ (KStr "Fe 28") Demo.iron) = Raise IndexError
  /\ fst (__getitem__ (KStr "Fe XIV") Demo.iron) = Raise ValueError.
Proof. repeat split; reflexivity. Qed.

(** ** Further properties of indexed access *)

Lemma split_space_prefix ws s :
  PyStr.all_chars PyStr.isspace ws = true -> PyStr.split (ws +:+ s) = PyStr.split s.
Proof.
  induction ws as [|c ws IH]; [done|]. simpl.
  intros [Hc Hws]%andb_prop. sapp. cbn [PyStr.split]. rewrite Hc. by apply IH.
Qed.

Lemma starts_token_space_prefix ws s :
  ws <> "" -> PyStr.all_chars PyStr.isspace ws = true -> PyStr.starts_token (ws +:+ s) = false.
Proof.
  destruct ws as [|c ws]; [done|]. simpl.
  intros _ [Hc _]%andb_prop. sapp. simpl. by rewrite Hc.
Qed.

Lemma split_spaces ws : PyStr.all_chars PyStr.isspace ws = true -> PyStr.split ws = [].
Proof.
  intros H. rewrite <- (sapp_nil_r ws). by rewrite split_space_prefix.
Qed.

Lemma starts_token_spaces ws :
  PyStr.all_chars PyStr.isspace ws = true -> PyStr.starts_token ws = false.
Proof.
  destruct ws as [|c ws]; [done|]. simpl. intros [Hc _]%andb_prop. by rewrite Hc.
Qed.

(** Two tokens with any whitespace before, between and after them. *)
Lemma split_padded ws1 w ws2 t ws3 :
  PyStr.all_chars PyStr.isspace ws1 = true ->
  PyStr.all_chars PyStr.isspace ws2 = true -> ws2 <> "" ->
  PyStr.all_chars PyStr.isspace ws3 = true ->
  PyStr.is_token w = true -> PyStr.is_token t = true ->
  PyStr.split (ws1 +:+ w +:+ ws2 +:+ t +:+ ws3) = [w; t].
Proof.
  intros H1 H2 Hne H3 Hw Ht.
  rewrite split_space_prefix by done.
  rewrite split_token_app; [|done|by apply starts_token_space_prefix].
  rewrite split_space_prefix by done.
  rewrite split_token_app; [|done|by apply starts_token_spaces].
  by rewrite split_spaces.
Qed.

(** [" ".join(tokens).split() == tokens]. *)
Lemma split_join tokens :
  Forall (fun s => PyStr.is_token s = true) tokens ->
  PyStr.split (PyStr.join " " tokens) = tokens.
Proof.
  induction 1 as [|w l Hw Hl IH]; [done|].
  cbn [PyStr.join]. destruct l as [|w' l]; [by apply split_token|].
  rewrite split_token_app; [|done|done].
  sapp. cbn [PyStr.split]. cbn [PyStr.isspace]. simpl PyStr.isspace.
  change (PyStr.split (String " " (PyStr.join " " (w' :: l))))
    with (PyStr.split (PyStr.join " " (w' :: l))).
  by rewrite IH.
Qed.

Lemma all_chars_lstrip p q s :
  PyStr.all_chars p s = true -> PyStr.all_chars p (PyStr.lstrip q s) = true.
Proof.
  induction s as [|c s IH]; [done|]. simpl. intros H.
  destruct (q c); [|exact H]. apply andb_prop in H as [_ H]. by apply IH.
Qed.

Lemma all_chars_rstrip p q s :
  PyStr.all_chars p s = true -> PyStr.all_chars p (PyStr.rstrip q s) = true.
Proof.
  induction s as [|c s IH]; [done|]. simpl. intros [Hc Hs]%andb_prop.
  specialize (IH Hs). destruct (PyStr.rstrip q s) as [|c' r].
  - destruct (q c); [done|]. simpl. by rewrite Hc.
  - simpl in *. by rewrite Hc.
Qed.

Lemma all_chars_strip p q s :
  PyStr.all_chars p s = true -> PyStr.all_chars p (PyStr.strip q s) = true.
Proof. intros H. unfold PyStr.strip. by apply all_chars_rstrip, all_chars_lstrip. Qed.

Lemma all_chars_sign_of p s :
  PyStr.all_chars p s = true -> PyStr.all_chars p (snd (PyStr.sign_of s)) = true.
Proof.
  destruct s as [|c s]; [done|]. intros H.
  assert (Hs : PyStr.all_chars p s = true) by (simpl in H; by apply andb_prop in H as [_ ?]).
  destruct c as [[] [] [] [] [] [] [] []]; try exact H; exact Hs.
Qed.

Lemma digits_none s :
  PyStr.all_chars (fun c => negb (PyStr.is_digit c)) s = true -> PyStr.digits s = None.
Proof.
  destruct s as [|c s]; [done|]. simpl. intros [Hc _]%andb_prop.
  unfold PyStr.is_digit in Hc. by destruct (PyStr.digit_of c).
Qed.

(** [int] of a string without a digit raises. *)
Lemma int_no_digit s :
  PyStr.all_chars (fun c => negb (PyStr.is_digit c)) s = true -> PyStr.int s = Raise ValueError.
Proof.
  intros H. unfold PyStr.int.
  pose proof (all_chars_sign_of _ _ (all_chars_strip _ PyStr.isspace _ H)) as Hds.
  destruct (PyStr.sign_of _) as [neg ds]. simpl in Hds. by rewrite digits_none.
Qed.

Lemma ion_position_no_digit ion :
  PyStr.all_chars (fun c => negb (PyStr.is_digit c)) ion = true ->
  ion_position ion = Raise ValueError.
Proof.
  intros H. unfold ion_position. destruct (PyStr.contains "+" ion).
  - apply int_no_digit. by apply all_chars_strip.
  - by rewrite int_no_digit.
Qed.

Lemma lstrip_prefix p pre s :
  PyStr.all_chars p pre = true -> PyStr.lstrip p (pre +:+ s) = PyStr.lstrip p s.
Proof.
  induction pre as [|c pre IH]; [done|]. simpl. intros [Hc Hp]%andb_prop.
  sapp. simpl. rewrite Hc. by apply IH.
Qed.

Lemma rstrip_suffix p s suf :
  PyStr.all_chars p suf = true -> PyStr.rstrip p (s +:+ suf) = PyStr.rstrip p s.
Proof.
  intros Hsuf. induction s as [|c s IH]; sapp.
  - induction suf as [|a suf IHs]; [done|]. simpl in *.
    apply andb_prop in Hsuf as [Ha Hsuf]. rewrite (IHs Hsuf). by rewrite Ha.
  - simpl. by rewrite IH.
Qed.

Lemma contains_app_l c s t : PyStr.contains c s = true -> PyStr.contains c (s +:+ t) = true.
Proof.
  induction s as [|a s IH]; [done|]. sapp. simpl.
  destruct (Ascii.eqb a c); [done|]. simpl. exact IH.
Qed.

Lemma contains_app_r c s t : PyStr.contains c t = true -> PyStr.contains c (s +:+ t) = true.
Proof.
  intros H. induction s as [|a s IH]; [done|]. sapp. simpl.
  rewrite IH. by destruct (Ascii.eqb a c).
Qed.

Lemma contains_all c s :
  s <> "" -> PyStr.all_chars (Ascii.eqb c) s = true -> PyStr.contains c s = true.
Proof.
  destruct s as [|a s]; [done|]. simpl. intros _ [Ha _]%andb_prop.
  apply Ascii.eqb_eq in Ha. subst. by rewrite Ascii.eqb_refl.
Qed.

(** Plus signs around the number are dropped, and make it a charge. *)
Lemma ion_position_plus pre n suf :
  PyStr.all_chars (Ascii.eqb "+") pre = true -> PyStr.all_chars (Ascii.eqb "+") suf = true ->
  pre +:+ suf <> "" ->
  ion_position (pre +:+ PyStr.str n +:+ suf) = Ok n.
Proof.
  intros Hpre Hsuf Hne. unfold ion_position.
  assert (Hc : PyStr.contains "+" (pre +:+ PyStr.str n +:+ suf) = true).
  { destruct pre as [|c pre].
    - sapp. apply contains_app_r. apply contains_all; [|done].
      intros ->. by apply Hne.
    - apply contains_app_l. by apply contains_all. }
  rewrite Hc. unfold PyStr.strip.
  assert (Hnp : PyStr.all_chars (fun c => negb (Ascii.eqb "+" c)) (PyStr.str n) = true)
    by (eapply all_chars_impl; [apply numchar_not_plus'|apply str_numchars]).
  rewrite lstrip_prefix by done.
  rewrite lstrip_app_id; [|apply str_nonempty|done].
  rewrite rstrip_suffix by done.
  rewrite rstrip_id by done. apply int_str.
Qed.

Lemma token_app_plus s suf :
  PyStr.is_token s = true -> PyStr.all_chars (Ascii.eqb "+") suf = true ->
  PyStr.is_token (s +:+ suf) = true.
Proof.
  intros Hs Hsuf. apply is_token_inv in Hs as [Hne Hs].
  apply is_token_intro.
  - destruct s; [done|]. by sapp.
  - rewrite all_chars_app, Hs. simpl.
    eapply all_chars_impl; [|exact Hsuf].
    intros c Hc%Ascii.eqb_eq. by subst.
Qed.

Lemma token_plus_app pre s :
  PyStr.all_chars (Ascii.eqb "+") pre = true -> PyStr.is_token s = true ->
  PyStr.is_token (pre +:+ s) = true.
Proof.
  intros Hpre Hs. apply is_token_inv in Hs as [Hne Hs].
  apply is_token_intro.
  - destruct pre; [by sapp|]. by sapp.
  - rewrite all_chars_app, Hs, andb_true_r.
    eapply all_chars_impl; [|exact Hpre].
    intros c Hc%Ascii.eqb_eq. by subst.
Qed.

(** X1: a string key is read through [split()], so whitespace before the
    element token, after the stage token, and any run of it between the two
    is immaterial: the padded key gives what the one-space key gives. *)
Theorem getitem_whitespace_insensitive (self : Element) (ws1 w ws2 t ws3 : string) :
  PyStr.all_chars PyStr.isspace ws1 = true ->
  PyStr.all_chars PyStr.isspace ws2 = true -> ws2 <> "" ->
  PyStr.all_chars PyStr.isspace ws3 = true ->
  PyStr.is_token w = true -> PyStr.is_token t = true ->
  __getitem__ (KStr (ws1 +:+ w +:+ ws2 +:+ t +:+ ws3)) self
  = __getitem__ (KStr (w +:+ " " +:+ t)) self.
Proof.
  intros H1 H2 Hne H3 Hw Ht. unfold __getitem__, key_position.
  by rewrite split_padded, split_two_tokens.
Qed.

Lemma getitem_whitespace_insensitive_iron :
  __getitem__ (KStr "  Fe    14+ ") Demo.iron = __getitem__ (KStr "Fe 14+") Demo.iron.
Proof.
  apply (getitem_whitespace_insensitive Demo.iron "  " "Fe" "    " "14+" " ");
    try reflexivity. discriminate.
Defined.

(** X2: a string key must hold exactly two tokens: with any other number of
    whitespace-separated tokens (none, one, three or more) the unpacking
    raises [ValueError] and no ion is looked up. *)
Theorem getitem_token_count (self : Element) (tokens : list string) :
  Forall (fun s => PyStr.is_token s = true) tokens -> length tokens <> 2%nat ->
  __getitem__ (KStr (PyStr.join " " tokens)) self = (Raise ValueError, self).
Proof.
  intros Htok Hlen. unfold __getitem__, key_position.
  rewrite split_join by done.
  destruct tokens as [|a [|b [|c l]]]; try reflexivity. by destruct Hlen.
Qed.

Lemma getitem_token_count_three :
  __getitem__ (KStr "Fe 14 +") Demo.iron = (Raise ValueError, Demo.iron).
Proof.
  apply (getitem_token_count Demo.iron ["Fe"; "14"; "+"]).
  - repeat constructor.
  - simpl. lia.
Defined.

(** X3: the stage token is turned into a position by subtracting one, and
    positions below zero count from the end; so stage ["0"] is the last ion,
    and stage [-k] the ion [k] places before it. *)
Theorem getitem_stage_wraps (self : Element) (symbol : string) (k : nat) (ion : Ion) :
  PyStr.is_token symbol = true ->
  (k < length (_ion_list self))%nat ->
  _ion_list self !! (length (_ion_list self) - 1 - k)%nat = Some ion ->
  __getitem__ (KStr (symbol +:+ " " +:+ PyStr.str (- Z.of_nat k))) self = (Ok ion, self).
Proof.
  intros Hsym Hk Hion.
  rewrite (getitem_position symbol (PyStr.str (- Z.of_nat k)) (- Z.of_nat (S k)));
    [|done|apply str_is_token|].
  - apply getitem_neg; [lia|].
    by replace (length (_ion_list self) - S k)%nat
      with (length (_ion_list self) - 1 - k)%nat by lia.
  - rewrite ion_position_stage. f_equal. lia.
Qed.

Lemma getitem_stage_wraps_iron :
  __getitem__ (KStr "Fe 0") Demo.iron
  = (Ok {| ion_name := "26 27"; atomic_number := 26; temperature := [1%Q];
           ionization_rate := [37%Q]; recombination_rate := [47%Q] |}, Demo.iron).
Proof.
  apply (getitem_stage_wraps Demo.iron "Fe" 0); [reflexivity|simpl; lia|reflexivity].
Defined.

(** X4: a stage token that holds a plus sign anywhere is read as a charge:
    the plus signs at both ends are stripped, so ["+n"], ["n+"] and ["++n+"]
    all denote position [n] (and not [n - 1], as the stage ["n"] does). *)
Theorem getitem_plus_is_charge (self : Element) (symbol pre suf : string) (n : Z) :
  PyStr.is_token symbol = true ->
  PyStr.all_chars (Ascii.eqb "+") pre = true -> PyStr.all_chars (Ascii.eqb "+") suf = true ->
  pre +:+ suf <> "" ->
  __getitem__ (KStr (symbol +:+ " " +:+ pre +:+ PyStr.str n +:+ suf)) self
  = __getitem__ (KInt n) self.
Proof.
  intros Hsym Hpre Hsuf Hne.
  apply getitem_position; [done| |by apply ion_position_plus].
  apply token_plus_app; [done|]. apply token_app_plus; [apply str_is_token|done].
Qed.

Lemma getitem_plus_is_charge_iron :
  __getitem__ (KStr "Fe ++2+") Demo.iron = __getitem__ (KInt 2) Demo.iron.
Proof.
  apply (getitem_plus_is_charge Demo.iron "Fe" "++" "+" 2); try reflexivity. discriminate.
Defined.

(** X5: a stage token without a decimal digit (a Roman numeral, say) is
    never resolved: the key raises [ValueError], whatever the collection. *)
Theorem getitem_stage_without_digit (self : Element) (symbol ion : string) :
  PyStr.is_token symbol = true -> PyStr.is_token ion = true ->
  PyStr.all_chars (fun c => negb (PyStr.is_digit c)) ion = true ->
  __getitem__ (KStr (symbol +:+ " " +:+ ion)) self = (Raise ValueError, self).
Proof.
  intros Hsym Hion Hnd. rewrite getitem_two_tokens by done.
  unfold bind, lift. by rewrite ion_position_no_digit.
Qed.

Lemma getitem_stage_without_digit_iron :
  __getitem__ (KStr "Fe XIV") Demo.iron = (Raise ValueError, Demo.iron).
Proof. exact (getitem_stage_without_digit Demo.iron "Fe" "XIV" eq_refl eq_refl eq_refl). Defined.

(** ** Further properties of construction *)

Lemma init_ok (ion_kwargs : Type) (resolver : element_id -> result Z)
    (Ion_new : string -> list Q -> ion_kwargs -> Ion) element_name temp kwargs self :
  __init__ ion_kwargs resolver Ion_new element_name temp kwargs = Ok self ->
  exists z,
    resolver match element_name with
             | NameStr s => NameStr (PyStr.capitalize s)
             | NameInt n => NameInt n
             end = Ok z
    /\ _ion_list self
       = map (fun i => Ion_new (PyStr.str z +:+ " " +:+ PyStr.str (i + 1)) temp kwargs)
             (range 0 (z + 1)).
Proof.
  unfold __init__. destruct (resolver _) as [z|e]; simpl; [|done].
  intros [= <-]. exists z. split; [done|].
  unfold IonCollection_init. cbn [_ion_list]. by rewrite fold_left_snoc, app_nil_l.
Qed.

Lemma range_lookup_inv a b (i : nat) j :
  range a b !! i = Some j -> j = a + Z.of_nat i /\ Z.of_nat i < b - a.
Proof.
  unfold range. rewrite list_lookup_fmap. intros H.
  destruct (seq 0 (Z.to_nat (b - a)) !! i) as [k|] eqn:E; [|done].
  simpl in H. injection H as <-.
  apply lookup_seq in E as [-> Hlt]. split; [done|lia].
Qed.

Lemma upper_lower c : PyStr.upper (PyStr.lower c) = PyStr.upper c.
Proof. destruct c as [[] [] [] [] [] [] [] []]; reflexivity. Qed.

Lemma lower_lower c : PyStr.lower (PyStr.lower c) = PyStr.lower c.
Proof. destruct c as [[] [] [] [] [] [] [] []]; reflexivity. Qed.

Lemma map_lower_lower s :
  PyStr.map_chars PyStr.lower (PyStr.map_chars PyStr.lower s) = PyStr.map_chars PyStr.lower s.
Proof. induction s as [|c s IH]; [done|]. simpl. by rewrite lower_lower, IH. Qed.

(** [capitalize] only sees a string up to the case of its letters. *)
Lemma capitalize_lower s :
  PyStr.capitalize (PyStr.map_chars PyStr.lower s) = PyStr.capitalize s.
Proof.
  destruct s as [|c s]; [done|]. simpl. by rewrite upper_lower, map_lower_lower.
Qed.

Lemma well_formed_intro self (z t : nat) ion0 :
  (1 <= z)%nat -> length (_ion_list self) = S z ->
  _ion_list self !! 0%nat = Some ion0 ->
  atomic_number ion0 = Z.of_nat z -> length (temperature ion0) = t ->
  (forall i ion, _ion_list self !! i = Some ion ->
     length (ionization_rate ion) = t /\ length (recombination_rate ion) = t) ->
  well_formed self z t = true.
Proof.
  intros Hz Hlen H0 Hnum Htemp Hall. unfold well_formed.
  apply andb_true_intro. split; [apply andb_true_intro; split;
                                 [apply andb_true_intro; split|]|].
  - by apply Nat.leb_le.
  - by apply Nat.eqb_eq.
  - destruct (_ion_list self) as [|x l]; [done|]. injection H0 as ->.
    apply andb_true_intro. split; [by apply Z.eqb_eq|by apply Nat.eqb_eq].
  - apply forallb_forall. intros ion Hin. apply list_elem_of_In in Hin.
    apply list_elem_of_lookup in Hin as [i Hi].
    destruct (Hall i ion Hi) as [H1 H2].
    apply andb_true_intro. split; by apply Nat.eqb_eq.
Qed.

(** X6: every ion of a constructed element is found again under the label
    it was built from: position [i] holds the ion built from ["<Z> <i+1>"],
    and that string, used as a key, returns this very ion. *)
Theorem init_label_round_trip
    (ion_kwargs : Type) (plasmapy_atomic_number : element_id -> result Z)
    (Ion_new : string -> list Q -> ion_kwargs -> Ion)
    (element_name : element_id) (temperature : list Q) (kwargs : ion_kwargs)
    (self : Element) (i : nat) (ion : Ion) :
  __init__ ion_kwargs plasmapy_atomic_number Ion_new element_name temperature kwargs = Ok self ->
  _ion_list self !! i = Some ion ->
  exists label,
    ion = Ion_new label temperature kwargs
    /\ __getitem__ (KStr label) self = (Ok ion, self).
Proof.
  intros Hinit Hion.
  destruct (init_ok _ _ _ _ _ _ _ Hinit) as (z & _ & Hl).
  pose proof Hion as Hion'. rewrite Hl, list_lookup_fmap in Hion'.
  destruct (range 0 (z + 1) !! i) as [j|] eqn:E; [|done].
  simpl in Hion'. injection Hion' as Hion'.
  apply range_lookup_inv in E as [-> _].
  exists (PyStr.str z +:+ " " +:+ PyStr.str (0 + Z.of_nat i + 1)). split; [done|].
  rewrite (getitem_position _ _ (Z.of_nat i)); [|apply str_is_token..|].
  - by apply getitem_nat.
  - rewrite ion_position_stage. f_equal. lia.
Qed.

Lemma init_label_round_trip_iron :
  exists label,
    Demo.ion_of "26 15" [1%Q] tt = Demo.ion_of label [1%Q] tt
    /\ __getitem__ (KStr label) Demo.iron = (Ok (Demo.ion_of "26 15" [1%Q] tt), Demo.iron).
Proof.
  apply (init_label_round_trip unit Demo.atomic_number_of Demo.ion_of
           (NameStr "iron") [1%Q] tt Demo.iron 14); reflexivity.
Defined.

(** X7: string identifiers are resolved up to the case of their letters:
    two names that agree once lower-cased are handed to the resolver as the
    same string, so they build the same element or raise the same error. *)
Theorem init_case_insensitive
    (ion_kwargs : Type) (plasmapy_atomic_number : element_id -> result Z)
    (Ion_new : string -> list Q -> ion_kwargs -> Ion)
    (name1 name2 : string) (temperature : list Q) (kwargs : ion_kwargs) :
  PyStr.map_chars PyStr.lower name1 = PyStr.map_chars PyStr.lower name2 ->
  __init__ ion_kwargs plasmapy_atomic_number Ion_new (NameStr name1) temperature kwargs
  = __init__ ion_kwargs plasmapy_atomic_number Ion_new (NameStr name2) temperature kwargs.
Proof.
  intros H. unfold __init__.
  by rewrite <- (capitalize_lower name1), <- (capitalize_lower name2), H.
Qed.

Lemma init_case_insensitive_demo :
  Demo.element "IRON" [1%Q] = Demo.element "iRon" [1%Q].
Proof.
  exact (init_case_insensitive unit Demo.atomic_number_of Demo.ion_of
           "IRON" "iRon" [1%Q] tt eq_refl).
Defined.

(** X8: construction and the builder fit together: when the resolver
    returns [z >= 1] and every ion built from a label ["<z> <stage>"]
    reports atomic number [z], the grid it was given, and rates of the shape
    of the grid, the element holds [z + 1] such ions and [_rate_matrix]
    returns an array of shape [T x (z+1) x (z+1)] without raising. *)
Theorem init_then_rate_matrix
    (ion_kwargs : Type) (plasmapy_atomic_number : element_id -> result Z)
    (Ion_new : string -> list Q -> ion_kwargs -> Ion)
    (element_name : element_id) (temp : list Q) (kwargs : ion_kwargs) (z : Z) :
  plasmapy_atomic_number
    match element_name with
    | NameStr s => NameStr (PyStr.capitalize s)
    | NameInt n => NameInt n
    end = Ok z ->
  1 <= z ->
  (forall stage, 1 <= stage <= z + 1 ->
     let ion := Ion_new (PyStr.str z +:+ " " +:+ PyStr.str stage) temp kwargs in
     atomic_number ion = z /\ temperature ion = temp
     /\ length (ionization_rate ion) = length temp
     /\ length (recombination_rate ion) = length temp) ->
  exists self a,
    __init__ ion_kwargs plasmapy_atomic_number Ion_new element_name temp kwargs = Ok self
    /\ well_formed self (Z.to_nat z) (length temp) = true
    /\ _rate_matrix self = (Ok a, self)
    /\ (Np.dim0 a, Np.dim1 a, Np.dim2 a) = (length temp, S (Z.to_nat z), S (Z.to_nat z)).
Proof.
  intros Hres Hz Hion.
  destruct (__init__ ion_kwargs plasmapy_atomic_number Ion_new element_name temp kwargs)
    as [self|e] eqn:Hinit; [|unfold __init__ in Hinit; by rewrite Hres in Hinit].
  destruct (init_ok _ _ _ _ _ _ _ Hinit) as (z' & Hres' & Hl).
  rewrite Hres in Hres'. injection Hres' as <-.
  assert (Hlook : forall i ion, _ion_list self !! i = Some ion ->
            ion = Ion_new (PyStr.str z +:+ " " +:+ PyStr.str (Z.of_nat i + 1)) temp kwargs
            /\ Z.of_nat i < z + 1).
  { intros i ion Hi. rewrite Hl, list_lookup_fmap in Hi.
    destruct (range 0 (z + 1) !! i) as [j|] eqn:E; [|done].
    simpl in Hi. injection Hi as <-.
    apply range_lookup_inv in E as [-> Hlt]. split; [by rewrite Z.add_0_l|lia]. }
  assert (Hlen : length (_ion_list self) = S (Z.to_nat z)).
  { rewrite Hl, length_map, range_length. lia. }
  destruct (lookup_lt_is_Some_2 (_ion_list self) 0) as [ion0 H0]; [lia|].
  assert (Hwf : well_formed self (Z.to_nat z) (length temp) = true).
  { apply (well_formed_intro self _ _ ion0); try done.
    - lia.
    - destruct (Hlook _ _ H0) as [-> _].
      destruct (Hion (Z.of_nat 0 + 1)) as (Ha & _); [lia|]. rewrite Ha. lia.
    - destruct (Hlook _ _ H0) as [-> _].
      destruct (Hion (Z.of_nat 0 + 1)) as (_ & Ht & _); [lia|]. by rewrite Ht.
    - intros i ion Hi. destruct (Hlook _ _ Hi) as [-> Hlt].
      destruct (Hion (Z.of_nat i + 1)) as (_ & _ & HI & HR); [lia|]. done. }
  destruct (rate_matrix_spec _ _ _ Hwf) as (a & E & (D0 & D1 & D2 & _) & _).
  exists self, a. repeat split; try done. by rewrite D0, D1, D2.
Qed.

Lemma init_then_rate_matrix_lithium :
  exists self a,
    Demo.element "li" [1%Q; 2%Q] = Ok self
    /\ well_formed self 3 2 = true
    /\ _rate_matrix self = (Ok a, self)
    /\ (Np.dim0 a, Np.dim1 a, Np.dim2 a) = (2, 4, 4)%nat.
Proof.
  apply (init_then_rate_matrix unit Demo.atomic_number_of Demo.ion_of
           (NameStr "li") [1%Q; 2%Q] tt 3); [reflexivity|lia|].
  intros stage Hs.
  assert (H : stage = 1 \/ stage = 2 \/ stage = 3 \/ stage = 4) by lia.
  destruct H as [->|[->|[->| ->]]]; repeat split; reflexivity.
Defined.

(** ** Further properties of the builder and the solver *)

Lemma range_one_cases n : range 1 n = [] \/ exists l, range 1 n = 1 :: l.
Proof.
  unfold range. destruct (Z.to_nat (n - 1)) as [|k]; [by left|].
  right. simpl. eauto.
Qed.

Lemma equilibrium_ionization_raises svd_vh self e :
  _rate_matrix self = (Raise e, self) ->
  equilibrium_ionization svd_vh ∅ self = (Raise e, self).
Proof.
  intros H. unfold equilibrium_ionization. rewrite lookup_empty. simpl.
  by rewrite (bind_raise _ _ _ _ _ H).
Qed.

Lemma rate_matrix_one_ion self ion0 :
  _ion_list self = [ion0] -> exists e, _rate_matrix self = (Raise e, self).
Proof.
  intros Hl.
  assert (H0 : _ion_list self !! 0%nat = Some ion0) by by rewrite Hl.
  assert (G0 : __getitem__ (KInt 0) self = (Ok ion0, self))
    by exact (getitem_nat 0 _ _ H0).
  assert (G1 : __getitem__ (KInt 1) self = (Raise IndexError, self)).
  { rewrite getitem_int, Hl. reflexivity. }
  unfold _rate_matrix.
  step (temperature_ok _ _ H0).
  step (atomic_number_ok _ _ H0). step (atomic_number_ok _ _ H0).
  unfold lift at 1. unfold bind at 1.
  destruct (Np.zeros _ _ _) as [a0|e0]; [|by eexists].
  step G0. step (atomic_number_ok _ _ H0).
  destruct (range_one_cases (atomic_number ion0)) as [-> | [l ->]].
  - cbn [mfold]. unfold ret at 1. unfold bind at 1.
    step G0. step G0.
    unfold lift at 1. unfold bind at 1.
    destruct (Np.add _ _) as [s|e1]; [|by eexists].
    unfold lift at 1. unfold bind at 1.
    destruct (Np.setitem _ _ _ _) as [a1|e2]; [|by eexists].
    rewrite (bind_raise _ _ _ _ _ G1). by eexists.
  - cbn [mfold].
    assert (Hrow : interior_row a0 1 self = (Raise IndexError, self)).
    { unfold interior_row. by rewrite (bind_raise _ _ _ _ _ G1). }
    rewrite (bind_raise _ _ _ _ _ (bind_raise _ _ _ _ _ Hrow)). by eexists.
Qed.

(** X9: the builder needs at least two ions: on a collection with none or
    one it raises (lines 61 and 69 read [self[0]] and [self[1]]), whatever
    the atomic number reported, and so does [equilibrium_ionization()]
    without a supplied matrix. *)
Theorem rate_matrix_needs_two_ions
    (svd_vh : list (list Q) -> list (list Q)) (self : Element) :
  (length (_ion_list self) < 2)%nat ->
  exists e, _rate_matrix self = (Raise e, self)
            /\ equilibrium_ionization svd_vh ∅ self = (Raise e, self).
Proof.
  intros Hlen.
  assert (H : exists e, _rate_matrix self = (Raise e, self)).
  { destruct self as [[|ion0 [|ion1 l]]]; simpl in Hlen.
    - exists IndexError. reflexivity.
    - by apply (rate_matrix_one_ion _ ion0).
    - lia. }
  destruct H as [e He]. exists e. split; [done|].
  by apply equilibrium_ionization_raises.
Qed.

Lemma rate_matrix_needs_two_ions_single_stage :
  exists e, _rate_matrix Demo.single_stage = (Raise e, Demo.single_stage)
            /\ equilibrium_ionization Demo.ones_vh ∅ Demo.single_stage
               = (Raise e, Demo.single_stage).
Proof. apply (rate_matrix_needs_two_ions Demo.ones_vh Demo.single_stage). simpl. lia. Defined.

Lemma le_sum x l : Forall (fun y => 0 <= y)%Q l -> x ∈ l -> (x <= Np.sum l)%Q.
Proof.
  induction 1 as [|y l Hy Hl IH]; intros Hin; [by apply elem_of_nil in Hin|].
  simpl. apply elem_of_cons in Hin as [->|Hin].
  - rewrite <- (Qplus_0_r y) at 1. apply Qplus_le_compat; [apply Qle_refl|].
    by apply sum_nonneg.
  - rewrite <- (Qplus_0_l x). apply Qplus_le_compat; [done|by apply IH].
Qed.

(** X10: every fraction [equilibrium_ionization] returns lies between 0
    and 1 (exact arithmetic, the decomposition as in C2). *)
Theorem fractions_between_zero_and_one
    (svd_vh : list (list Q) -> list (list Q)) (self : Element) (z t : nat)
    (fractions : list (list Q)) (row : list Q) (x : Q) :
  well_formed self z t = true -> svd_contract svd_vh (S z) ->
  fst (equilibrium_ionization svd_vh ∅ self) = Ok fractions ->
  row ∈ fractions -> x ∈ row ->
  (0 <= x <= 1)%Q.
Proof.
  intros Hwf Hsvd Hfr Hrow Hx.
  destruct (rate_matrix_spec self z t Hwf) as (a & E & Ha & _).
  rewrite (solve_default_spec svd_vh a self t (S z) E Ha Hsvd) in Hfr.
  simpl in Hfr. injection Hfr as <-.
  apply list_elem_of_fmap in Hrow as (slice & -> & Hin).
  apply list_elem_of_lookup in Hin as [k Hk].
  destruct (shaped_slices _ _ _ _ _ _ Ha Hk) as [Hr Hc].
  destruct (Hsvd slice Hr Hc) as (v & Hlast & _ & Hnz).
  rewrite Hlast in Hx. simpl in Hx.
  destruct (normalized_abs_distribution v Hnz) as (_ & Hpos & Hsum).
  split.
  - rewrite Forall_forall in Hpos. by apply Hpos.
  - rewrite <- Hsum. by apply le_sum.
Qed.

Lemma fractions_between_zero_and_one_hydrogen :
  (0 <= 1 # 2 <= 1)%Q.
Proof.
  apply (fractions_between_zero_and_one Demo.ones_vh Demo.hydrogen 1 2
           [[1 # 2; 1 # 2]; [1 # 2; 1 # 2]]%Q [1 # 2; 1 # 2]%Q (1 # 2)%Q).
  - reflexivity.
  - apply ones_vh_contract. lia.
  - reflexivity.
  - apply elem_of_cons. by left.
  - apply elem_of_cons. by left.
Defined.

Lemma py_index_map {A B} (h : A -> B) (l : list A) i :
  py_index (map h l) i = rfmap h (py_index l i).
Proof.
  unfold py_index. rewrite length_map.
  destruct ((0 <=? _) && _); [|done].
  change (map h l) with (h <$> l). rewrite list_lookup_fmap.
  by destruct (l !! _).
Qed.

Lemma rmap_index_map {A B} (h : list A -> list B) (l : list (list (list A))) i :
  rmap (fun vh => py_index vh i) (map (map h) l)
  = rfmap (map h) (rmap (fun vh => py_index vh i) l).
Proof.
  induction l as [|vh l IH]; [done|]. simpl.
  rewrite py_index_map, IH.
  destruct (py_index vh i); simpl; [|done].
  by destruct (rmap _ l).
Qed.

Lemma Qabs_Qopp x : Qabs (- x) = Qabs x.
Proof. destruct x as [n d]. unfold Qabs, Qopp. simpl. by rewrite Z.abs_opp. Qed.

(** X11: the result does not depend on the sign the decomposition gives
    its singular vectors: negating every row of every [Vh] leaves the
    outcome of [equilibrium_ionization] unchanged, with or without a
    supplied matrix (lines 99-101). *)
Theorem equilibrium_ionization_sign_invariant
    (svd_vh : list (list Q) -> list (list Q))
    (kwargs : gmap string (option Np.ndarray3)) (self : Element) :
  equilibrium_ionization (fun m => map (map Qopp) (svd_vh m)) kwargs self
  = equilibrium_ionization svd_vh kwargs self.
Proof.
  unfold equilibrium_ionization. unfold bind at 1 3.
  destruct (match default None (kwargs !! "rate_matrix") with
            | Some m => ret m
            | None => _rate_matrix
            end self) as [[rm|e] self']; [|done].
  rewrite <- (map_map svd_vh (map (map Qopp)) (Np.data rm)).
  rewrite rmap_index_map.
  unfold lift, bind, ret.
  destruct (rmap _ (map svd_vh (Np.data rm))) as [rows|e]; simpl; [|done].
  assert (E : map (map Qabs) (map (map Qopp) rows) = map (map Qabs) rows).
  { rewrite map_map. apply map_ext. intros row. rewrite map_map.
    apply map_ext. intros x. apply Qabs_Qopp. }
  by rewrite E.
Qed.

Lemma dot_scale (g : Q -> Q) (c : Q) row v :
  (forall x, x ∈ v -> (g x == c * x)%Q) -> (dot row (map g v) == c * dot row v)%Q.
Proof.
  unfold dot. revert v. induction row as [|r row IH]; intros v Hg.
  - simpl. ring.
  - destruct v as [|x v]; simpl; [ring|].
    rewrite IH by (intros y Hy; apply Hg, elem_of_cons; by right).
    rewrite (Hg x) by (apply elem_of_cons; by left). ring.
Qed.

(** Taking absolute values and normalizing keeps a vector of one sign in
    the null space of a matrix. *)
Lemma normalized_abs_null slice v :
  Forall (fun x => 0 <= x)%Q v \/ Forall (fun x => x <= 0)%Q v ->
  Forall (fun row => (dot row v == 0)%Q) slice ->
  Forall (fun row => (dot row (normalized_abs v) == 0)%Q) slice.
Proof.
  intros Hsign Hnull. apply Forall_forall. intros row Hrow.
  rewrite Forall_forall in Hnull. specialize (Hnull row Hrow).
  unfold normalized_abs. set (s := Np.sum (map Qabs v)).
  destruct Hsign as [Hpos|Hneg].
  - rewrite (dot_scale _ (/ s)%Q).
    + rewrite Hnull. ring.
    + intros x Hx. rewrite Forall_forall in Hpos.
      rewrite (Qabs_pos x) by by apply Hpos. unfold Qdiv. ring.
  - rewrite (dot_scale _ (- / s)%Q).
    + rewrite Hnull. ring.
    + intros x Hx. rewrite Forall_forall in Hneg.
      rewrite (Qabs_neg x) by by apply Hneg. unfold Qdiv. ring.
Qed.

Lemma solve_slices svd_vh a self :
  _rate_matrix self = (Ok a, self) ->
  Forall (fun slice => is_Some (last (svd_vh slice))) (Np.data a) ->
  equilibrium_ionization svd_vh ∅ self
  = (Ok (map (fun slice => normalized_abs (default [] (last (svd_vh slice)))) (Np.data a)),
     self).
Proof.
  intros E Hlast. unfold equilibrium_ionization. rewrite lookup_empty. simpl.
  rewrite (bind_ok _ _ _ _ _ E).
  rewrite (rmap_ok _ (fun vh => default [] (last vh))).
  - unfold lift, bind, ret. cbv beta iota. f_equal. f_equal.
    rewrite zip_with_fmap_r, zip_with_diag, !map_map.
    apply map_ext. intros slice. by rewrite normalized_abs_alt.
  - apply Forall_forall. intros vh (slice & -> & Hin)%list_elem_of_fmap.
    rewrite Forall_forall in Hlast. destruct (Hlast slice Hin) as [v Hv].
    rewrite Hv. simpl. by apply py_index_last.
Qed.

(** X12: the fractions solve the balance equations whenever the
    decomposition delivers a null vector of one sign: if, for every slice
    [M] of the rate matrix, the last row [v] of [Vh] is not zero, has no two
    entries of opposite sign and satisfies [M v = 0], then each returned row
    [f] satisfies [M f = 0] and sums to 1 (exact arithmetic). *)
Theorem fractions_solve_balance
    (svd_vh : list (list Q) -> list (list Q)) (self : Element) (a : Np.ndarray3) :
  _rate_matrix self = (Ok a, self) ->
  (forall slice, slice ∈ Np.data a ->
     exists v, last (svd_vh slice) = Some v
               /\ Exists (fun x => ~ (x == 0)%Q) v
               /\ (Forall (fun x => 0 <= x)%Q v \/ Forall (fun x => x <= 0)%Q v)
               /\ Forall (fun row => (dot row v == 0)%Q) slice) ->
  exists fractions,
    equilibrium_ionization svd_vh ∅ self = (Ok fractions, self)
    /\ length fractions = length (Np.data a)
    /\ forall k slice f, Np.data a !! k = Some slice -> fractions !! k = Some f ->
         Forall (fun row => (dot row f == 0)%Q) slice /\ (Np.sum f == 1)%Q.
Proof.
  intros E Hsvd. eexists. split; [|split].
  - apply solve_slices; [done|]. apply Forall_forall. intros slice Hin.
    destruct (Hsvd slice Hin) as (v & -> & _). by eexists.
  - by rewrite length_map.
  - intros k slice f Hk Hf. rewrite list_lookup_fmap, Hk in Hf.
    simpl in Hf. injection Hf as <-.
    destruct (Hsvd slice) as (v & -> & Hnz & Hsign & Hnull);
      [by eapply list_elem_of_lookup_2|]. simpl.
    split; [by apply normalized_abs_null|].
    by destruct (normalized_abs_distribution v Hnz) as (_ & _ & ?).
Qed.

Lemma fractions_solve_balance_hydrogen :
  exists fractions,
    equilibrium_ionization Demo.null_vh ∅ Demo.balanced_hydrogen
    = (Ok fractions, Demo.balanced_hydrogen)
    /\ length fractions = 1%nat
    /\ forall k slice f,
         [[[(-2)%Q; 3%Q]; [2%Q; (-3)%Q]]] !! k = Some slice -> fractions !! k = Some f ->
         Forall (fun row => (dot row f == 0)%Q) slice /\ (Np.sum f == 1)%Q.
Proof.
  apply (fractions_solve_balance Demo.null_vh Demo.balanced_hydrogen
           {| Np.dim0 := 1; Np.dim1 := 2; Np.dim2 := 2;
              Np.data := [[[(-2)%Q; 3%Q]; [2%Q; (-3)%Q]]] |}); [reflexivity|].
  intros slice Hin. apply list_elem_of_singleton in Hin. subst slice.
  exists [(-3)%Q; (-2)%Q]. split; [reflexivity|]. split; [|split].
  - left. intros H. discriminate H.
  - right. repeat constructor; intros H; discriminate H.
  - repeat constructor; reflexivity.
Defined.

Example balanced_hydrogen_fractions :
  fst (equilibrium_ionization Demo.null_vh ∅ Demo.balanced_hydrogen) = Ok [[3 # 5; 2 # 5]]%Q.
Proof. reflexivity. Qed.

(** X13: only the keyword [rate_matrix] is read: any other keyword is
    ignored without complaint, and [rate_matrix=None] is the call without
    arguments (lines 93-95). *)
Theorem equilibrium_ionization_keywords
    (svd_vh : list (list Q) -> list (list Q))
    (kwargs : gmap string (option Np.ndarray3)) (self : Element) :
  (forall name value, name <> "rate_matrix" ->
     equilibrium_ionization svd_vh (<[name := value]> kwargs) self
     = equilibrium_ionization svd_vh kwargs self)
  /\ equilibrium_ionization svd_vh (<["rate_matrix" := None]> kwargs) self
     = equilibrium_ionization svd_vh ∅ self.
Proof.
  split.
  - intros name value Hne. unfold equilibrium_ionization.
    by rewrite lookup_insert_ne.
  - unfold equilibrium_ionization. by rewrite lookup_insert_eq, lookup_empty.
Qed.

Lemma equilibrium_ionization_keywords_hydrogen :
  equilibrium_ionization Demo.ones_vh (<["rate_matrx" := Some Demo.hydrogen_matrix]> ∅)
    Demo.hydrogen
  = equilibrium_ionization Demo.ones_vh ∅ Demo.hydrogen.
Proof.
  apply (proj1 (equilibrium_ionization_keywords Demo.ones_vh ∅ Demo.hydrogen)).
  discriminate.
Defined.

Lemma sapp_assoc s t u : (s +:+ t) +:+ u = s +:+ t +:+ u.
Proof. induction s as [|c s IH]; [done|]. sapp. by rewrite IH. Qed.

(** X14: the properties and [__repr__] read the first ion, so on an empty
    collection [atomic_number] and [__repr__] raise [IndexError]; on any
    other collection [__repr__] returns a text that ends with the names of
    the ions, one per line and in order, and leaves the instance alone. *)
Theorem repr_lists_ions
    (atomic_symbol_of element_name_of : Ion -> string) (self : Element) :
  match _ion_list self with
  | [] =>
      self_atomic_number self = (Raise IndexError, self)
      /\ __repr__ atomic_symbol_of element_name_of self = (Raise IndexError, self)
  | ion0 :: _ =>
      exists header,
        __repr__ atomic_symbol_of element_name_of self
        = (Ok (header +:+ "Available Ions" +:+ PyStr.newline +:+ "--------------"
               +:+ PyStr.newline
               +:+ PyStr.join PyStr.newline (map ion_name (_ion_list self))), self)
  end.
Proof.
  destruct self as [[|ion0 l]]; cbn [_ion_list].
  - split; reflexivity.
  - exists ("Element" +:+ PyStr.newline +:+ "-------" +:+ PyStr.newline
            +:+ atomic_symbol_of ion0 +:+ " (" +:+ PyStr.str (atomic_number ion0)
            +:+ ") -- " +:+ element_name_of ion0 +:+ PyStr.newline +:+ PyStr.newline).
    unfold __repr__, first_ion_attribute, self_atomic_number, self_ion_list, bind, ret.
    cbn [_ion_list __getitem__ IonCollection.__getitem__].
    unfold bind, self_ion_list, lift. cbn [_ion_list]. cbn [py_index].
    simpl. f_equal. f_equal.
    rewrite !sapp_assoc. reflexivity.
Qed.

(** X15: with non-negative rates the array has the signs of a rate
    operator: no diagonal entry is positive and no off-diagonal entry is
    negative. *)
Theorem rate_matrix_signs (self : Element) (z t : nat) (a : Np.ndarray3)
    (k i j : nat) (q : Q) :
  well_formed self z t = true ->
  (forall n ion, _ion_list self !! n = Some ion ->
     Forall (fun x => 0 <= x)%Q (ionization_rate ion)
     /\ Forall (fun x => 0 <= x)%Q (recombination_rate ion)) ->
  fst (_rate_matrix self) = Ok a ->
  (k < t)%nat -> (i <= z)%nat -> (j <= z)%nat ->
  Np.get a k i j = Some q ->
  (i = j -> q <= 0)%Q /\ (i <> j -> 0 <= q)%Q.
Proof.
  intros Hwf Hpos Ha Hk Hi Hj Hq.
  destruct (rate_matrix_spec _ _ _ Hwf) as (a' & E & _ & G).
  rewrite E in Ha. injection Ha as ->.
  rewrite (G k i j Hk Hi Hj) in Hq.
  assert (HI : forall n x, ionization_rate_at self n k = Some x -> (0 <= x)%Q).
  { intros n x. unfold ionization_rate_at.
    destruct (_ion_list self !! n) as [ion|] eqn:En; [|done]. intros Hx.
    destruct (Hpos n ion En) as [H _]. rewrite Forall_forall in H.
    apply H. by eapply list_elem_of_lookup_2. }
  assert (HR : forall n x, recombination_rate_at self n k = Some x -> (0 <= x)%Q).
  { intros n x. unfold recombination_rate_at.
    destruct (_ion_list self !! n) as [ion|] eqn:En; [|done]. intros Hx.
    destruct (Hpos n ion En) as [_ H]. rewrite Forall_forall in H.
    apply H. by eapply list_elem_of_lookup_2. }
  unfold spec_entry in Hq. split.
  - intros ->. rewrite decide_True in Hq by done.
    destruct (ionization_rate_at self j k) as [x|] eqn:Ex; [|done].
    destruct (recombination_rate_at self j k) as [y|] eqn:Ey; [|done].
    injection Hq as <-.
    change 0%Q with (- 0)%Q. apply Qopp_le_compat.
    change 0%Q with (0 + 0)%Q. apply Qplus_le_compat; [by eapply HI|by eapply HR].
  - intros Hne. rewrite decide_False in Hq by done.
    repeat case_decide.
    + by eapply HI.
    + by eapply HR.
    + injection Hq as <-. apply Qle_refl.
Qed.

Lemma rate_matrix_signs_lithium :
  ((1 = 1)%nat -> (- (34 # 1) <= 0)%Q) /\ ((1 <> 1)%nat -> (0 <= - (34 # 1))%Q).
Proof.
  apply (rate_matrix_signs Demo.lithium 3 2
           (Demo.get_or_empty_matrix (fst (_rate_matrix Demo.lithium))) 0 1 1).
  - reflexivity.
  - intros n ion Hn.
    destruct n as [|[|[|[|n]]]]; simpl in Hn; try discriminate Hn;
      injection Hn as <-; split; repeat constructor; intros H; discriminate H.
  - reflexivity.
  - lia.
  - lia.
  - lia.
  - reflexivity.
Defined.

(** ** The rate matrix as the balance operator *)

Lemma rate_at_some self z t n k :
  well_formed self z t = true -> (n <= z)%nat -> (k < t)%nat ->
  ionization_rate_at self n k = Some (I_ self n k)
  /\ recombination_rate_at self n k = Some (R_ self n k).
Proof.
  intros Hwf Hn Hk.
  destruct (well_formed_inv _ _ _ Hwf) as (_ & _ & _ & Hions).
  destruct (Hions n Hn) as (ion & Hion & HI & HR).
  destruct (lookup_lt_is_Some_2 (ionization_rate ion) k) as [x Hx]; [lia|].
  destruct (lookup_lt_is_Some_2 (recombination_rate ion) k) as [y Hy]; [lia|].
  unfold I_, R_, ionization_rate_at, recombination_rate_at.
  by rewrite Hion, Hx, Hy.
Qed.

Lemma dot_as_sum row f n :
  length row = n -> length f = n ->
  (dot row f
   == Np.sum (map (fun j => default 0 (row !! j) * default 0 (f !! j)) (seq 0 n)))%Q.
Proof.
  unfold dot. revert f n. induction row as [|r row IH]; intros f n Hr Hf.
  - simpl in Hr. subst n. reflexivity.
  - destruct n as [|n]; [done|]. destruct f as [|x f]; [done|].
    simpl in Hr, Hf. injection Hr as Hr. injection Hf as Hf.
    cbn [zip_with Np.sum foldr seq map]. cbn [lookup list_lookup default].
    rewrite <- (fmap_S_seq 0). change (S <$> seq 0 n) with (map S (seq 0 n)).
    rewrite map_map. cbn [lookup list_lookup].
    change (foldr Qplus 0%Q (zip_with Qmult row f)) with (Np.sum (zip_with Qmult row f)).
    rewrite (IH f n Hr Hf). reflexivity.
Qed.

Lemma row_times_populations self z t a k i slice row f :
  well_formed self z t = true -> fst (_rate_matrix self) = Ok a ->
  (k < t)%nat -> (i <= z)%nat ->
  Np.data a !! k = Some slice -> slice !! i = Some row -> length f = S z ->
  (dot row f
   == (if decide (1 <= i)%nat
       then I_ self (i - 1) k * default 0 (f !! (i - 1)%nat) else 0)
      - (I_ self i k + R_ self i k) * default 0 (f !! i)
      + (if decide (i < z)%nat
         then R_ self (S i) k * default 0 (f !! S i) else 0))%Q.
Proof.
  intros Hwf Ha Hk Hi Hslice Hrow Hf.
  destruct (rate_matrix_spec _ _ _ Hwf) as (a' & E & Hshape & G).
  rewrite E in Ha. injection Ha as ->.
  destruct (shaped_slices _ _ _ _ _ _ Hshape Hslice) as [_ Hc].
  assert (Hlen : length row = S z).
  { rewrite Forall_forall in Hc. apply Hc. by eapply list_elem_of_lookup_2. }
  rewrite (dot_as_sum row f (S z) Hlen Hf).
  rewrite (sum_map_ext _
    (fun j => (if decide (j = i)
               then - (I_ self i k + R_ self i k) * default 0 (f !! i) else 0)
              + ((if decide (j = (i - 1)%nat)
                  then (if decide (1 <= i)%nat
                        then I_ self (i - 1) k * default 0 (f !! (i - 1)%nat) else 0)
                  else 0)
                 + (if decide (j = S i)
                    then R_ self (S i) k * default 0 (f !! S i) else 0)))%Q).
  - rewrite !sum_map_add, !sum_indicator.
    repeat case_decide; try lia; ring.
  - intros j Hj%elem_of_seq.
    assert (Hget : row !! j = spec_entry self k i j).
    { rewrite <- (G k i j) by lia. unfold Np.get. by rewrite Hslice, Hrow. }
    rewrite Hget. unfold spec_entry.
    destruct (rate_at_some self z t i k Hwf Hi Hk) as [HIi HRi].
    repeat case_decide; try lia.
    + subst j. rewrite HIi, HRi. simpl. ring.
    + subst j. rewrite HIi, HRi. simpl. ring.
    + replace (i - 1)%nat with j by lia. unfold I_. ring.
    + subst j. unfold R_. ring.
    + simpl. ring.
Qed.

(** X16: each slice of the array is the ionization-balance operator:
    applied to populations [f], row [i] gives the net rate of change of
    stage [i], that is ionization from stage [i-1] (for [i >= 1]), minus the
    losses [(I_i + R_i) f_i], plus recombination from stage [i+1] (for
    [i < z]).  Arithmetic is exact. *)
Theorem rate_matrix_times_populations (self : Element) (z t : nat) (a : Np.ndarray3)
    (k i : nat) (slice : list (list Q)) (row f : list Q) :
  well_formed self z t = true -> fst (_rate_matrix self) = Ok a ->
  (k < t)%nat -> (i <= z)%nat ->
  Np.data a !! k = Some slice -> slice !! i = Some row -> length f = S z ->
  (dot row f
   == (if decide (1 <= i)%nat
       then I_ self (i - 1) k * default 0 (f !! (i - 1)%nat) else 0)
      - (I_ self i k + R_ self i k) * default 0 (f !! i)
      + (if decide (i < z)%nat
         then R_ self (S i) k * default 0 (f !! S i) else 0))%Q.
Proof.
  intros Hwf Ha Hk Hi Hslice Hrow Hf.
  by apply (row_times_populations self z t a k i slice row f).
Qed.

Lemma rate_matrix_times_populations_lithium :
  (dot [11; -(34); 23; 0] [1; 2; 3; 4]
   == (if decide (1 <= 1)%nat
       then I_ Demo.lithium (1 - 1) 0 * default 0 ([1; 2; 3; 4] !! (1 - 1)%nat) else 0)
      - (I_ Demo.lithium 1 0 + R_ Demo.lithium 1 0) * default 0 ([1; 2; 3; 4] !! 1%nat)
      + (if decide (1 < 3)%nat
         then R_ Demo.lithium 2 0 * default 0 ([1; 2; 3; 4] !! 2%nat) else 0))%Q.
Proof.
  apply (rate_matrix_times_populations Demo.lithium 3 2
           (Demo.get_or_empty_matrix (fst (_rate_matrix Demo.lithium))) 0 1
           [[(-32)%Q; 22%Q; 0%Q; 0%Q]; [11%Q; (-34)%Q; 23%Q; 0%Q];
            [0%Q; 12%Q; (-36)%Q; 24%Q]; [0%Q; 0%Q; 13%Q; (-38)%Q]]);
    try reflexivity; lia.
Defined.

(** X17: populations in detailed balance are an equilibrium of the array:
    if [I_n f_n = R_{n+1} f_{n+1}] for every pair of neighbouring stages,
    the neutral stage does not recombine and the bare stage does not
    ionize, then every row of every slice applied to [f] gives zero. *)
Theorem detailed_balance_is_equilibrium (self : Element) (z t : nat) (a : Np.ndarray3)
    (k i : nat) (slice : list (list Q)) (row f : list Q) :
  well_formed self z t = true -> fst (_rate_matrix self) = Ok a ->
  (k < t)%nat -> (i <= z)%nat ->
  Np.data a !! k = Some slice -> slice !! i = Some row -> length f = S z ->
  (forall n, (n < z)%nat ->
     (I_ self n k * default 0 (f !! n) == R_ self (S n) k * default 0 (f !! S n))%Q) ->
  (R_ self 0 k == 0)%Q -> (I_ self z k == 0)%Q ->
  (dot row f == 0)%Q.
Proof.
  intros Hwf Ha Hk Hi Hslice Hrow Hf Hdb HR0 HIz.
  destruct (well_formed_inv _ _ _ Hwf) as (Hz & _).
  rewrite (row_times_populations self z t a k i slice row f) by done.
  destruct (decide (1 <= i)%nat) as [H1|H1]; destruct (decide (i < z)%nat) as [H2|H2].
  - pose proof (Hdb (i - 1)%nat ltac:(lia)) as Hlo.
    replace (S (i - 1)) with i in Hlo by lia.
    rewrite Hlo, <- (Hdb i H2). ring.
  - pose proof (Hdb (i - 1)%nat ltac:(lia)) as Hlo.
    replace (S (i - 1)) with i in Hlo by lia.
    assert (i = z) as -> by lia. rewrite Hlo, HIz. ring.
  - assert (i = 0%nat) as -> by lia. rewrite <- (Hdb 0%nat H2), HR0. ring.
  - lia.
Qed.

Lemma detailed_balance_is_equilibrium_hydrogen :
  (dot [-(2); 3] [3; 2] == 0)%Q.
Proof.
  apply (detailed_balance_is_equilibrium Demo.balanced_hydrogen 1 1
           (Demo.get_or_empty_matrix (fst (_rate_matrix Demo.balanced_hydrogen))) 0 0
           [[(-2)%Q; 3%Q]; [2%Q; (-3)%Q]]); try reflexivity; try lia.
  intros n Hn. assert (n = 0%nat) as -> by lia. reflexivity.
Defined.
